(** * Capital-letter indicators for text selection

    A shallow embedding of
    [addon/globalPlugins/capitalSelectionIndicator.py] and the properties
    its specification states about it.

    Python values are represented as follows.
    - [str] is [string]; one [ascii] stands for one code point, so the
      model covers text whose code points are below 256.
    - A speech sequence is a list of [SequenceItem]: text or a command.
    - The host's text intervals ([textInfos.TextInfo]) are an interface,
      the class [TextInfo]; an offset based instance is given further down.
    - The host environment read by the add-on (active synthesizer, its
      configuration dictionary, symbol processing, gettext, the
      capital-notification builder) is the record [Host].
    - Speech output is a trace of [SpeechCall]s; a Python exception is a
      value of [Exn]. *)

From stdpp Require Import gmap strings list.
From Stdlib Require Import ZArith Ascii String.

(** ** Python string primitives *)

Module PyStr.

(** [s.startswith(p)] *)
Fixpoint startswith (p s : string) : bool :=
  match p, s with
  | EmptyString, _ => true
  | String a p', String b s' => if Ascii.eqb a b then startswith p' s' else false
  | String _ _, EmptyString => false
  end.

(** [s[n:]] *)
Fixpoint drop (n : nat) (s : string) : string :=
  match n, s with
  | O, _ => s
  | S n', String _ s' => drop n' s'
  | S _, EmptyString => EmptyString
  end.

(** The first occurrence of a non-empty separator: [find_split sep s] is
    [Some (before, after)] exactly when [sep in s], and then
    [s.split(sep, 1) == [before, after]]. *)
Fixpoint find_split (sep s : string) : option (string * string) :=
  if startswith sep s then Some (EmptyString, drop (String.length sep) s)
  else
    match s with
    | EmptyString => None
    | String c s' =>
        match find_split sep s' with
        | Some (before, after) => Some (String c before, after)
        | None => None
        end
    end.

(** [sep in s] *)
Definition contains (sep s : string) : bool :=
  match find_split sep s with Some _ => true | None => false end.

(** [s.count(sep)] for a non-empty [sep]: the number of non-overlapping
    occurrences, scanning from the left. The recursion is on a bound that
    the length of [s] always meets. *)
Fixpoint count_upto (bound : nat) (sep s : string) : nat :=
  match bound with
  | O => O
  | S bound' =>
      match find_split sep s with
      | Some (_, after) => S (count_upto bound' sep after)
      | None => O
      end
  end.

Definition count (sep s : string) : nat := count_upto (String.length s) sep s.

(** [s.replace(old, new)] for a non-empty [old]. *)
Fixpoint replace_upto (bound : nat) (old new s : string) : string :=
  match bound with
  | O => s
  | S bound' =>
      match find_split old s with
      | Some (before, after) =>
          String.append before (String.append new (replace_upto bound' old new after))
      | None => s
      end
  end.

Definition replace (old new s : string) : string :=
  replace_upto (String.length s) old new s.

(** Case classification of the code points below 256. *)
Definition chr_isupper (c : ascii) : bool :=
  let n := nat_of_ascii c in
  ((65 <=? n) && (n <=? 90)) || ((192 <=? n) && (n <=? 222) && negb (n =? 215)).

Definition chr_islower (c : ascii) : bool :=
  let n := nat_of_ascii c in
  ((97 <=? n) && (n <=? 122)) || (n =? 170) || (n =? 181) || (n =? 186)
  || ((223 <=? n) && (n <=? 246)) || ((248 <=? n) && (n <=? 255)).

(** [s.isupper()]: no lowercase code point and at least one uppercase. *)
Fixpoint isupper_from (cased : bool) (s : string) : bool :=
  match s with
  | EmptyString => cased
  | String c s' =>
      if chr_islower c then false else isupper_from (cased || chr_isupper c) s'
  end.

Definition isupper (s : string) : bool := isupper_from false s.

(** [bool(s)]: a string is truthy when it is not empty. *)
Definition truthy (s : string) : bool :=
  match s with EmptyString => false | String _ _ => true end.

End PyStr.

(** ** Speech sequences *)

(** [speech.types.SequenceItemT]: text, or one of the commands the
    capital notification uses. *)
Inductive SequenceItem : Type :=
  | Text (s : string)
  | PitchCommand (offset : Z)
  | BeepCommand (hz : Z) (length : Z).

Definition SpeechSequence : Type := list SequenceItem.

#[global] Instance SequenceItem_eq_dec : EqDecision SequenceItem.
Proof. solve_decision. Defined.

(** The text of a sequence: its string items, concatenated in order. *)
Fixpoint sequenceText (seq : SpeechSequence) : string :=
  match seq with
  | [] => EmptyString
  | Text s :: seq' => String.append s (sequenceText seq')
  | _ :: seq' => sequenceText seq'
  end.

Definition isText (i : SequenceItem) : bool :=
  match i with Text _ => true | _ => false end.

(** ** [_buildSpeechFromTemplate] *)

(** The membership test ["%s" not in template] and the split at the first
    "%s" are one [PyStr.find_split]: [None] is the branch taken when the
    placeholder is absent. [result] is the list the source appends to. *)

Definition _buildSpeechFromTemplate (template : string) (charSequence : SpeechSequence)
  : SpeechSequence :=
  match PyStr.find_split "%s" template with
  | None => charSequence ++ [Text template]
  | Some (before, after) =>
      let result := [] in
      let result := if PyStr.truthy before then result ++ [Text before] else result in
      let result := result ++ charSequence in
      let result := if PyStr.truthy after then result ++ [Text after] else result in
      result
  end.

(** ** The host environment *)

(** The classes of speech command a synthesizer may list in
    [supportedCommands]. *)
Inductive CommandClass : Type :=
  | PitchCommandClass
  | BeepCommandClass
  | OtherCommandClass (n : nat).

#[global] Instance CommandClass_eq_dec : EqDecision CommandClass.
Proof. solve_decision. Defined.

(** The active synthesizer driver, as far as the add-on reads it. *)
Record Synth : Type := mkSynth {
  name : string;
  supportedCommands : list CommandClass
}.

(** One synthesizer's section of [config.conf["speech"]]. *)
Record SynthConfig : Type := mkSynthConfig {
  capPitchChange : Z;
  sayCapForCapitals : bool;
  beepForCapitals : bool
}.

(** What the add-on imports from the host and calls. *)
Record Host : Type := mkHost {
  (** [synthDriverHandler.getSynth()] *)
  getSynth : option Synth;
  (** [config.conf["speech"]], a dictionary keyed by synthesizer name *)
  conf_speech : gmap string SynthConfig;
  (** [characterProcessing.processSpeechSymbol(locale, char)] *)
  processSpeechSymbol : string -> string -> string;
  (** gettext's [_] *)
  translate : string -> string;
  (** [speech._getSpellingCharAddCapNotification(speakCharAs,
      sayCapForCapitals, capPitchChange, beepForCapitals)] *)
  _getSpellingCharAddCapNotification : string -> bool -> Z -> bool -> SpeechSequence;
  (** [speech.getCurrentLanguage()] *)
  getCurrentLanguage : string
}.

(** The host after [config.conf["speech"][synthName]] is set to
    [synthConfig]: the same host under another synthesizer configuration. *)
Definition withSynthConfig (host : Host) (synthName : string) (synthConfig : SynthConfig)
  : Host := {|
  getSynth := getSynth host;
  conf_speech := <[synthName := synthConfig]> (conf_speech host);
  processSpeechSymbol := processSpeechSymbol host;
  translate := translate host;
  _getSpellingCharAddCapNotification := _getSpellingCharAddCapNotification host;
  getCurrentLanguage := getCurrentLanguage host
|}.

(** The host with no synthesizer active, under any configuration
    dictionary and any capital-notification builder. *)
Definition withoutSynth (host : Host) (conf : gmap string SynthConfig)
    (builder : string -> bool -> Z -> bool -> SpeechSequence) : Host := {|
  getSynth := None;
  conf_speech := conf;
  processSpeechSymbol := processSpeechSymbol host;
  translate := translate host;
  _getSpellingCharAddCapNotification := builder;
  getCurrentLanguage := getCurrentLanguage host
|}.

(** A Python exception raised while the add-on runs. *)
Inductive Exn : Type :=
  | KeyError (key : string).

(** [speech.priorities.Spri] *)
Inductive Spri : Type := NORMAL | NEXT | NOW.

(** The calls the add-on makes into the host's speech output. [speak] is
    always called with [symbolLevel=None]. *)
Inductive SpeechCall : Type :=
  | speak (seq : SpeechSequence) (priority : option Spri)
  | speakTextSelected (text : string) (priority : option Spri)
  | speakSelectionMessage (message : string) (text : string) (priority : option Spri)
  | speakMessage (text : string) (priority : option Spri).

(** A computation that emits speech calls and then returns or raises. *)
Record Outcome (A : Type) : Type := mkOutcome {
  emitted : list SpeechCall;
  result : Exn + A
}.
Arguments mkOutcome {A} _ _.
Arguments emitted {A} _.
Arguments result {A} _.

Definition ret {A : Type} (a : A) : Outcome A := mkOutcome [] (inr a).

Definition emit (c : SpeechCall) : Outcome unit := mkOutcome [c] (inr tt).

(** A call that emits nothing itself and returns or raises. *)
Definition lift {A : Type} (v : Exn + A) : Outcome A := mkOutcome [] v.

(** Sequencing: what [m] emitted stays emitted when it raises, and the
    continuation runs only when it returned. *)
Definition bind {A B : Type} (f : A -> Outcome B) (m : Outcome A) : Outcome B :=
  match result m with
  | inl e => mkOutcome (emitted m) (inl e)
  | inr a => let r := f a in mkOutcome (emitted m ++ emitted r) (result r)
  end.

#[global] Instance Outcome_ret : MRet Outcome := @ret.
#[global] Instance Outcome_bind : MBind Outcome := @bind.

(** [for x in xs: body(x)] *)
Fixpoint forEach {A : Type} (body : A -> Outcome unit) (xs : list A) : Outcome unit :=
  match xs with
  | [] => ret tt
  | x :: xs' => body x ;; forEach body xs'
  end.

(** ** Single-character announcements *)

Section SingleChar.

Variable host : Host.

(** [_getSingleCharSelectionSpeech(char, locale, messageTemplate)];
    [messageTemplate] is [None] when the argument is left out. *)
Definition _getSingleCharSelectionSpeech
    (char locale : string) (messageTemplate : option string) : Exn + SpeechSequence :=
  let messageTemplate :=
    match messageTemplate with
    | None => translate host "%s selected"
    | Some t => t
    end in
  match getSynth host with
  | None =>
      let speakCharAs := processSpeechSymbol host locale char in
      inr (_buildSpeechFromTemplate messageTemplate [Text speakCharAs])
  | Some synth =>
      match conf_speech host !! name synth with
      | None => inl (KeyError (name synth))
      | Some synthConfig =>
          let capPitchChange :=
            if bool_decide (PitchCommandClass ∈ supportedCommands synth)
            then capPitchChange synthConfig
            else 0%Z in
          let sayCapForCapitals := sayCapForCapitals synthConfig in
          let beepForCapitals := beepForCapitals synthConfig in
          let speakCharAs := processSpeechSymbol host locale char in
          let uppercase := PyStr.isupper char in
          let charSequence :=
            _getSpellingCharAddCapNotification host
              speakCharAs
              (uppercase && sayCapForCapitals)
              (if uppercase then capPitchChange else 0%Z)
              (uppercase && beepForCapitals) in
          inr (_buildSpeechFromTemplate messageTemplate charSequence)
      end
  end.

(** [bool(seq)] *)
Definition nonEmpty {A : Type} (l : list A) : bool :=
  match l with [] => false | _ :: _ => true end.

Definition _speakSingleCharSelected
    (char locale : string) (priority : option Spri) : Outcome unit :=
  seq ← lift (_getSingleCharSelectionSpeech char locale None);
  if nonEmpty seq then emit (speak seq priority) else ret tt.

Definition _speakSingleCharUnselected
    (char locale : string) (priority : option Spri) : Outcome unit :=
  seq ← lift (_getSingleCharSelectionSpeech char locale
                 (Some (translate host "%s unselected")));
  if nonEmpty seq then emit (speak seq priority) else ret tt.

End SingleChar.

(** ** Text intervals *)

(** The [which] argument of [compareEndPoints] and [setEndPoint]: one of
    the strings "startToStart", "startToEnd", "endToStart", "endToEnd". *)
Module Which.
Inductive t : Type := startToStart | startToEnd | endToStart | endToEnd.
End Which.

(** [textInfos.TextInfo], as far as the add-on uses it. [setEndPoint]
    mutates the interval it is called on: here it returns the interval
    after the call. [copy] gives a distinct object, so that moving an
    endpoint of the copy leaves the interval copied from as it was. *)
Class TextInfo (T : Type) : Type := {
  isCollapsed : T -> bool;
  compareEndPoints : T -> T -> Which.t -> Z;
  copy : T -> T;
  setEndPoint : T -> T -> Which.t -> T;
  text : T -> string
}.

(** ** [_patchedSpeakSelectionChange] *)

Section SelectionChange.

Context {T : Type} `{TextInfo T}.
Variable host : Host.

(** The two lists built once the early return is passed. *)
Definition buildTextLists (oldInfo newInfo : T) (speakSelected speakUnselected : bool)
  : list string * list string :=
  let selectedTextList : list string := [] in
  let unselectedTextList : list string := [] in
  let startToStart := compareEndPoints newInfo oldInfo Which.startToStart in
  let startToEnd := compareEndPoints newInfo oldInfo Which.startToEnd in
  let endToStart := compareEndPoints newInfo oldInfo Which.endToStart in
  let endToEnd := compareEndPoints newInfo oldInfo Which.endToEnd in
  if speakSelected && isCollapsed oldInfo then
    (selectedTextList ++ [text newInfo], unselectedTextList)
  else if speakUnselected && isCollapsed newInfo then
    (selectedTextList, unselectedTextList ++ [text oldInfo])
  else if (0 <? startToEnd)%Z || (endToStart <? 0)%Z then
    let selectedTextList :=
      if speakSelected && negb (isCollapsed newInfo)
      then selectedTextList ++ [text newInfo] else selectedTextList in
    let unselectedTextList :=
      if speakUnselected && negb (isCollapsed oldInfo)
      then unselectedTextList ++ [text oldInfo] else unselectedTextList in
    (selectedTextList, unselectedTextList)
  else
    let selectedTextList :=
      if speakSelected && (startToStart <? 0)%Z && negb (isCollapsed newInfo) then
        let tempInfo := copy newInfo in
        let tempInfo := setEndPoint tempInfo oldInfo Which.endToStart in
        selectedTextList ++ [text tempInfo]
      else selectedTextList in
    let selectedTextList :=
      if speakSelected && (0 <? endToEnd)%Z && negb (isCollapsed newInfo) then
        let tempInfo := copy newInfo in
        let tempInfo := setEndPoint tempInfo oldInfo Which.startToEnd in
        selectedTextList ++ [text tempInfo]
      else selectedTextList in
    let unselectedTextList :=
      if (0 <? startToStart)%Z && negb (isCollapsed oldInfo) then
        let tempInfo := copy oldInfo in
        let tempInfo := setEndPoint tempInfo newInfo Which.endToStart in
        unselectedTextList ++ [text tempInfo]
      else unselectedTextList in
    let unselectedTextList :=
      if (endToEnd <? 0)%Z && negb (isCollapsed oldInfo) then
        let tempInfo := copy oldInfo in
        let tempInfo := setEndPoint tempInfo newInfo Which.startToEnd in
        unselectedTextList ++ [text tempInfo]
      else unselectedTextList in
    (selectedTextList, unselectedTextList).

(** The announcements made from the two lists. *)
Definition announce (newInfo : T) (selectedTextList unselectedTextList : list string)
    (speakSelected speakUnselected generalize : bool) (priority : option Spri)
  : Outcome unit :=
  let locale := getCurrentLanguage host in
  (if speakSelected then
     if negb generalize then
       forEach (fun text =>
         if (String.length text =? 1)%nat
         then _speakSingleCharSelected host text locale priority
         else emit (speakTextSelected text priority))
         selectedTextList
     else if (0 <? List.length selectedTextList)%nat then
       let text := text newInfo in
       if (String.length text =? 1)%nat
       then _speakSingleCharSelected host text locale priority
       else emit (speakTextSelected text priority)
     else ret tt
   else ret tt) ;;
  (if speakUnselected then
     if negb generalize then
       forEach (fun text =>
         if (String.length text =? 1)%nat
         then _speakSingleCharUnselected host text locale priority
         else emit (speakSelectionMessage (translate host "%s unselected") text priority))
         unselectedTextList
     else if (0 <? List.length unselectedTextList)%nat then
       if negb (isCollapsed newInfo) then
         let text := text newInfo in
         if (String.length text =? 1)%nat
         then _speakSingleCharUnselected host text locale priority
         else emit (speakSelectionMessage (translate host "%s selected instead") text priority)
       else emit (speakMessage (translate host "selection removed") priority)
     else ret tt
   else ret tt).

(** What one call leaves behind: the two local lists as they stand when
    the function returns or raises, and the speech it emitted. *)
Record Run : Type := mkRun {
  selectedTextList : list string;
  unselectedTextList : list string;
  outcome : Outcome unit
}.

Definition _patchedSpeakSelectionChange
    (oldInfo newInfo : T)
    (speakSelected speakUnselected generalize : bool)
    (priority : option Spri) : Run :=
  if isCollapsed newInfo && isCollapsed oldInfo then mkRun [] [] (ret tt)
  else
    let '(selectedTextList, unselectedTextList) :=
      buildTextLists oldInfo newInfo speakSelected speakUnselected in
    mkRun selectedTextList unselectedTextList
      (announce newInfo selectedTextList unselectedTextList
         speakSelected speakUnselected generalize priority).

End SelectionChange.

(** ** Installing and removing the patch *)

(** A value that [speech.speakSelectionChange] can hold. *)
Inductive SelectionChangeFn : Type :=
  | hostSpeakSelectionChange
  | patchedSpeakSelectionChange
  | otherSpeakSelectionChange (n : nat).

(** The two process-wide variables the plug-in writes. *)
Record Globals : Type := mkGlobals {
  speech_speakSelectionChange : SelectionChangeFn;
  _originalSpeakSelectionChange : option SelectionChangeFn
}.

Module GlobalPlugin.

(** [GlobalPlugin.__init__]: saves the current entry point and installs
    the patched one. The base class constructor touches neither variable. *)
Definition __init__ (g : Globals) : Globals :=
  {| _originalSpeakSelectionChange := Some (speech_speakSelectionChange g);
     speech_speakSelectionChange := patchedSpeakSelectionChange |}.

(** [GlobalPlugin.terminate]; the base class method touches neither
    variable. *)
Definition terminate (g : Globals) : Globals :=
  match _originalSpeakSelectionChange g with
  | Some original =>
      {| speech_speakSelectionChange := original;
         _originalSpeakSelectionChange := None |}
  | None => g
  end.

End GlobalPlugin.

(** ** Fixtures: an offset based interval and an English host *)

(** A stand-in for the host's intervals, on which the functions above can
    be run: an interval is two offsets into a document, [compareEndPoints]
    is the sign of the offset difference (negative, zero or positive),
    [setEndPoint] moves one endpoint onto an endpoint of the other interval
    and keeps the start from passing the end, and [text] is the document
    between the two offsets. *)
Record OffsetsTextInfo : Type := mkOffsets {
  document : string;
  _startOffset : nat;
  _endOffset : nat
}.

Definition offsets_compareEndPoints (self other : OffsetsTextInfo) (which : Which.t) : Z :=
  let diff :=
    match which with
    | Which.startToStart => (Z.of_nat (_startOffset self) - Z.of_nat (_startOffset other))%Z
    | Which.startToEnd => (Z.of_nat (_startOffset self) - Z.of_nat (_endOffset other))%Z
    | Which.endToStart => (Z.of_nat (_endOffset self) - Z.of_nat (_startOffset other))%Z
    | Which.endToEnd => (Z.of_nat (_endOffset self) - Z.of_nat (_endOffset other))%Z
    end in
  if (diff <? 0)%Z then (-1)%Z else if (0 <? diff)%Z then 1%Z else diff.

Definition offsets_setEndPoint (self other : OffsetsTextInfo) (which : Which.t)
  : OffsetsTextInfo :=
  let '(s, e, movedStart) :=
    match which with
    | Which.startToStart => (_startOffset other, _endOffset self, true)
    | Which.startToEnd => (_endOffset other, _endOffset self, true)
    | Which.endToStart => (_startOffset self, _startOffset other, false)
    | Which.endToEnd => (_startOffset self, _endOffset other, false)
    end in
  if (e <? s)%nat then
    if movedStart then mkOffsets (document self) s s else mkOffsets (document self) e e
  else mkOffsets (document self) s e.

#[global] Instance OffsetsTextInfo_TextInfo : TextInfo OffsetsTextInfo := {
  isCollapsed i := (_startOffset i =? _endOffset i)%nat;
  compareEndPoints := offsets_compareEndPoints;
  copy i := i;
  setEndPoint := offsets_setEndPoint;
  text i := String.substring (_startOffset i) (_endOffset i - _startOffset i) (document i)
}.

(** Modelled from the spec: the host's single-character notification
    primitive, [speech._getSpellingCharAddCapNotification], is imported by
    the add-on and not part of this repository. The specification describes
    its composition: a pitch-shift-before / pitch-restore-after pair of
    directives wrapping the spoken character if pitch shifting applies, a
    leading "cap" spoken word if enabled, a short tone cue if enabled. The
    tone precedes the spoken word; its frequency and duration are the
    host's. *)
Definition capNotification
    (speakCharAs : string) (sayCapForCapitals : bool)
    (capPitchChange : Z) (beepForCapitals : bool) : SpeechSequence :=
  (if (capPitchChange =? 0)%Z then [] else [PitchCommand capPitchChange])
  ++ (if beepForCapitals then [BeepCommand 2000 50] else [])
  ++ (if sayCapForCapitals then [Text "cap"] else [])
  ++ [Text speakCharAs]
  ++ (if (capPitchChange =? 0)%Z then [] else [PitchCommand 0]).

(** An English host: gettext leaves the messages as they are, a character
    is spoken as itself, and the capital notification is composed as the
    specification describes. *)
Definition englishHost (synth : option Synth) (conf : gmap string SynthConfig) : Host := {|
  getSynth := synth;
  conf_speech := conf;
  processSpeechSymbol := fun _ char => char;
  translate := fun message => message;
  _getSpellingCharAddCapNotification := capNotification;
  getCurrentLanguage := "en"
|}.

Definition demoSynth : Synth := mkSynth "demo" [BeepCommandClass].

Definition pitchSynth : Synth := mkSynth "pitch" [PitchCommandClass; BeepCommandClass].

Definition demoConf : gmap string SynthConfig :=
  {[ "demo" := mkSynthConfig 30 true false;
     "pitch" := mkSynthConfig 30 true true ]}.

Definition quietConf : gmap string SynthConfig :=
  {[ "demo" := mkSynthConfig 0 false false;
     "pitch" := mkSynthConfig 0 false false ]}.

(** ** Vocabulary for the properties below *)

(** What one part of a split template adds to the result: its text when
    it is not empty, nothing otherwise. *)
Definition templatePart (part : string) : SpeechSequence :=
  if PyStr.truthy part then [Text part] else [].

(** The priority a speech call was made with. *)
Definition callPriority (c : SpeechCall) : option Spri :=
  match c with
  | speak _ priority => priority
  | speakTextSelected _ priority => priority
  | speakSelectionMessage _ _ priority => priority
  | speakMessage _ priority => priority
  end.

(** What [_patchedSpeakSelectionChange] does with one selected text, in
    the loop and in the generalize branch alike: a single character goes
    to [_speakSingleCharSelected], any other text to the host's
    [speakTextSelected]. *)
Definition selectedAnnouncement (host : Host) (text locale : string)
    (priority : option Spri) : Outcome unit :=
  if (String.length text =? 1)%nat
  then _speakSingleCharSelected host text locale priority
  else emit (speakTextSelected text priority).

(** What the loop over the unselected texts does with one of them. *)
Definition unselectedAnnouncement (host : Host) (text locale : string)
    (priority : option Spri) : Outcome unit :=
  if (String.length text =? 1)%nat
  then _speakSingleCharUnselected host text locale priority
  else emit (speakSelectionMessage (translate host "%s unselected") text priority).

(** [n] calls of [terminate] in a row. *)
Definition terminateTimes (n : nat) (g : Globals) : Globals :=
  Nat.iter n GlobalPlugin.terminate g.

(** ** Properties of the string primitives *)

Lemma append_cons (c : ascii) (s t : string) : String c s +:+ t = String c (s +:+ t).
Proof. reflexivity. Qed.

Lemma append_empty_l (t : string) : EmptyString +:+ t = t.
Proof. reflexivity. Qed.

Lemma append_empty_r (s : string) : s +:+ EmptyString = s.
Proof. induction s as [|c s IH]; [reflexivity | by rewrite append_cons, IH]. Qed.

Lemma length_append (s t : string) :
  String.length (s +:+ t) = String.length s + String.length t.
Proof. induction s as [|c s IH]; [reflexivity | rewrite append_cons; simpl; by rewrite IH]. Qed.

Ltac push_append := rewrite ?append_cons, ?append_empty_l, ?append_empty_r.

Section PyStrFacts.

Import PyStr.

Lemma startswith_drop (p s : string) :
  startswith p s = true -> s = p +:+ drop (String.length p) s.
Proof.
  revert s. induction p as [|a p IH]; intros s Hs; simpl in *.
  - reflexivity.
  - destruct s as [|b s]; [discriminate|].
    destruct (Ascii.eqb a b) eqn:Hab; [|discriminate].
    apply Ascii.eqb_eq in Hab. subst b. push_append. f_equal. apply IH, Hs.
Qed.

(** The two parts returned by [find_split] surround an occurrence of the
    separator. *)
Lemma find_split_app (sep s before after : string) :
  find_split sep s = Some (before, after) -> s = before +:+ sep +:+ after.
Proof.
  revert before after. induction s as [|c s IH]; intros before after Hf.
  - simpl in Hf. destruct (startswith sep EmptyString) eqn:Hp; [|discriminate].
    injection Hf as <- <-. push_append. apply startswith_drop, Hp.
  - simpl in Hf. destruct (startswith sep (String c s)) eqn:Hp.
    + injection Hf as <- <-. push_append. apply startswith_drop, Hp.
    + destruct (find_split sep s) as [[b a]|] eqn:Hs; [|discriminate].
      injection Hf as <- <-. push_append. f_equal. apply IH. reflexivity.
Qed.

Lemma find_split_length (sep s before after : string) :
  find_split sep s = Some (before, after) ->
  String.length s = String.length before + String.length sep + String.length after.
Proof.
  intros Hf. rewrite (find_split_app _ _ _ _ Hf) at 1.
  rewrite !length_append. lia.
Qed.

(** The bound in [count] and [replace] is large enough: a larger one
    gives the same result. *)
Lemma count_upto_enough (sep : string) (n : nat) :
  sep <> EmptyString ->
  forall s, String.length s <= n -> count_upto n sep s = count sep s.
Proof.
  intros Hsep. unfold count.
  induction n as [n IH] using lt_wf_ind. intros s Hn.
  destruct n as [|n].
  - destruct s; simpl in Hn; [reflexivity | lia].
  - destruct (String.length s) as [|m] eqn:Hlen.
    + simpl. destruct (find_split sep s) as [[b a]|] eqn:Hf; [|reflexivity].
      apply find_split_length in Hf.
      destruct sep; [congruence | simpl in Hf; lia].
    + simpl. destruct (find_split sep s) as [[b a]|] eqn:Hf; [|reflexivity].
      pose proof (find_split_length _ _ _ _ Hf) as Hl.
      assert (String.length a <= m) by (destruct sep; [congruence | simpl in Hl; lia]).
      f_equal. rewrite (IH n) by lia. rewrite (IH m) by lia. reflexivity.
Qed.

Lemma replace_upto_enough (old new : string) (n : nat) :
  old <> EmptyString ->
  forall s, String.length s <= n -> replace_upto n old new s = replace old new s.
Proof.
  intros Hold. unfold replace.
  induction n as [n IH] using lt_wf_ind. intros s Hn.
  destruct n as [|n].
  - destruct s; simpl in Hn; [reflexivity | lia].
  - destruct (String.length s) as [|m] eqn:Hlen.
    + simpl. destruct (find_split old s) as [[b a]|] eqn:Hf; [|reflexivity].
      apply find_split_length in Hf.
      destruct old; [congruence | simpl in Hf; lia].
    + simpl. destruct (find_split old s) as [[b a]|] eqn:Hf; [|reflexivity].
      pose proof (find_split_length _ _ _ _ Hf) as Hl.
      assert (String.length a <= m) by (destruct old; [congruence | simpl in Hl; lia]).
      do 2 f_equal. rewrite (IH n) by lia. rewrite (IH m) by lia. reflexivity.
Qed.

(** A string with exactly one occurrence splits there, and replacing the
    occurrence is all that [replace] does. *)
Lemma count_one_replace (sep new s : string) :
  sep <> EmptyString ->
  count sep s = 1 ->
  exists before after,
    find_split sep s = Some (before, after)
    /\ replace sep new s = before +:+ new +:+ after.
Proof.
  intros Hsep Hc. unfold count, replace in *.
  destruct (String.length s) as [|n]; [discriminate|].
  simpl in *. destruct (find_split sep s) as [[b a]|] eqn:Hf; [|discriminate].
  exists b, a. split; [reflexivity|].
  do 2 f_equal.
  destruct n as [|n]; [reflexivity|].
  simpl in *. destruct (find_split sep a) as [[b' a']|]; [discriminate | reflexivity].
Qed.

End PyStrFacts.

(** ** Properties of [_buildSpeechFromTemplate] *)

(** The text of a template filled with one string: the part before the
    placeholder, the string, the part after it. *)
Lemma buildSpeechFromTemplate_text (template before after s : string) :
  PyStr.find_split "%s" template = Some (before, after) ->
  sequenceText (_buildSpeechFromTemplate template [Text s]) = before +:+ s +:+ after.
Proof.
  intros Hf. unfold _buildSpeechFromTemplate. rewrite Hf.
  destruct before, after; simpl; push_append; reflexivity.
Qed.

(** C7: for a template with exactly one "%s" and a character sequence of
    one string s, the text of the built sequence is the template with
    "%s" replaced by s; filling in the literal "%s" gives the template
    back. *)
Theorem buildSpeechFromTemplate_round_trip (template s : string) :
  PyStr.count "%s" template = 1 ->
  sequenceText (_buildSpeechFromTemplate template [Text s])
    = PyStr.replace "%s" s template
  /\ sequenceText (_buildSpeechFromTemplate template [Text "%s"]) = template.
Proof.
  intros Hc.
  destruct (count_one_replace "%s" s template) as (b & a & Hf & Hr);
    [discriminate | exact Hc |].
  split.
  - rewrite Hr. apply buildSpeechFromTemplate_text, Hf.
  - rewrite (buildSpeechFromTemplate_text _ _ _ _ Hf).
    symmetry. apply find_split_app, Hf.
Qed.

Lemma buildSpeechFromTemplate_round_trip_witness :
  PyStr.count "%s" "%s selected instead" = 1
  /\ sequenceText (_buildSpeechFromTemplate "%s selected instead" [Text "A"])
      = "A selected instead"%string.
Proof.
  split; [reflexivity|].
  rewrite (proj1 (buildSpeechFromTemplate_round_trip "%s selected instead" "A" eq_refl)).
  reflexivity.
Defined.

(** ** Properties of the selection diff *)

Section DiffFacts.

Context {T : Type} `{TextInfo T}.
Variable host : Host.

(** Past the early return, the lists of a run are those of
    [buildTextLists]. *)
Lemma patched_lists (oldInfo newInfo : T) (speakSelected speakUnselected generalize : bool)
    (priority : option Spri) :
  isCollapsed newInfo && isCollapsed oldInfo = false ->
  let run := _patchedSpeakSelectionChange host oldInfo newInfo
               speakSelected speakUnselected generalize priority in
  (selectedTextList run, unselectedTextList run)
    = buildTextLists oldInfo newInfo speakSelected speakUnselected.
Proof.
  intros Hc. unfold _patchedSpeakSelectionChange. rewrite Hc.
  destruct (buildTextLists _ _ _ _). reflexivity.
Qed.

(** C1: when neither interval is collapsed and the current one starts
    after the end of the previous one or ends before its start, a call
    with both speak flags set selects exactly the text of the current
    interval and unselects exactly the text of the previous one. *)
Theorem disjoint_intervals_full_replacement (oldInfo newInfo : T)
    (generalize : bool) (priority : option Spri) :
  isCollapsed oldInfo = false ->
  isCollapsed newInfo = false ->
  (0 < compareEndPoints newInfo oldInfo Which.startToEnd
   \/ compareEndPoints newInfo oldInfo Which.endToStart < 0)%Z ->
  let run := _patchedSpeakSelectionChange host oldInfo newInfo true true generalize priority in
  selectedTextList run = [text newInfo] /\ unselectedTextList run = [text oldInfo].
Proof.
  intros Hold Hnew Hdisj run.
  assert (Hl : (selectedTextList run, unselectedTextList run)
               = ([text newInfo], [text oldInfo])).
  { subst run. rewrite patched_lists by (by rewrite Hnew).
    unfold buildTextLists. rewrite Hold, Hnew. simpl.
    replace ((0 <? compareEndPoints newInfo oldInfo Which.startToEnd)%Z
             || (compareEndPoints newInfo oldInfo Which.endToStart <? 0)%Z) with true.
    - reflexivity.
    - symmetry. apply orb_true_iff. destruct Hdisj; [left | right]; by apply Z.ltb_lt. }
  by inversion Hl.
Qed.

(** C2: when neither interval is collapsed, the two overlap, and the
    current one starts before and ends after the previous one, a call with
    both speak flags set and generalize off selects two spans, the current
    interval cut at the start of the previous one and the current interval
    from the end of the previous one on, and unselects nothing. *)
Theorem enclosing_interval_two_selected_spans (oldInfo newInfo : T)
    (priority : option Spri) :
  isCollapsed oldInfo = false ->
  isCollapsed newInfo = false ->
  (compareEndPoints newInfo oldInfo Which.startToEnd <= 0)%Z ->
  (0 <= compareEndPoints newInfo oldInfo Which.endToStart)%Z ->
  (compareEndPoints newInfo oldInfo Which.startToStart < 0)%Z ->
  (0 < compareEndPoints newInfo oldInfo Which.endToEnd)%Z ->
  let run := _patchedSpeakSelectionChange host oldInfo newInfo true true false priority in
  selectedTextList run
    = [text (setEndPoint (copy newInfo) oldInfo Which.endToStart);
       text (setEndPoint (copy newInfo) oldInfo Which.startToEnd)]
  /\ unselectedTextList run = [].
Proof.
  intros Hold Hnew Hse Hes Hss Hee run.
  assert (Hl : (selectedTextList run, unselectedTextList run)
               = ([text (setEndPoint (copy newInfo) oldInfo Which.endToStart);
                   text (setEndPoint (copy newInfo) oldInfo Which.startToEnd)], [])).
  { subst run. rewrite patched_lists by (by rewrite Hnew).
    unfold buildTextLists. rewrite Hold, Hnew. simpl.
    apply Z.ltb_ge in Hse, Hes. rewrite Hse, Hes. simpl.
    pose proof Hss as Hss'. pose proof Hee as Hee'.
    apply Z.ltb_lt in Hss', Hee'. rewrite Hss', Hee'.
    assert (Hss2 : (0 <? compareEndPoints newInfo oldInfo Which.startToStart)%Z = false)
      by (apply Z.ltb_ge; lia).
    assert (Hee2 : (compareEndPoints newInfo oldInfo Which.endToEnd <? 0)%Z = false)
      by (apply Z.ltb_ge; lia).
    rewrite Hss2, Hee2. reflexivity. }
  by inversion Hl.
Qed.

(** C3: when both intervals are collapsed, whatever the flags, both lists
    are empty and the call returns without having emitted any speech. *)
Theorem both_collapsed_silent (oldInfo newInfo : T)
    (speakSelected speakUnselected generalize : bool) (priority : option Spri) :
  isCollapsed oldInfo = true ->
  isCollapsed newInfo = true ->
  let run := _patchedSpeakSelectionChange host oldInfo newInfo
               speakSelected speakUnselected generalize priority in
  selectedTextList run = [] /\ unselectedTextList run = []
  /\ emitted (outcome run) = [] /\ result (outcome run) = inr tt.
Proof.
  intros Hold Hnew run. subst run. unfold _patchedSpeakSelectionChange.
  rewrite Hold, Hnew. simpl. auto.
Qed.

End DiffFacts.

(** On offsets, the first selected span of C2 is the document between the
    two starts and the second the document between the two ends. *)
Lemma offsets_extension_spans (doc : string) (ps pe cs ce : nat) :
  cs < ps -> ps <= pe -> pe < ce ->
  let oldInfo := mkOffsets doc ps pe in
  let newInfo := mkOffsets doc cs ce in
  text (setEndPoint (copy newInfo) oldInfo Which.endToStart)
    = String.substring cs (ps - cs) doc
  /\ text (setEndPoint (copy newInfo) oldInfo Which.startToEnd)
    = String.substring pe (ce - pe) doc.
Proof.
  intros H1 H2 H3. simpl. unfold offsets_setEndPoint. simpl.
  assert (E1 : (ps <? cs)%nat = false) by (apply Nat.ltb_ge; lia).
  assert (E2 : (ce <? pe)%nat = false) by (apply Nat.ltb_ge; lia).
  rewrite E1, E2. simpl. auto.
Qed.

Lemma disjoint_intervals_full_replacement_witness :
  let host := englishHost (Some demoSynth) demoConf in
  let run := _patchedSpeakSelectionChange host
               (mkOffsets "abcdefg" 1 2) (mkOffsets "abcdefg" 4 6) true true false None in
  selectedTextList run = ["ef"%string] /\ unselectedTextList run = ["b"%string].
Proof.
  exact (disjoint_intervals_full_replacement
           (englishHost (Some demoSynth) demoConf)
           (mkOffsets "abcdefg" 1 2) (mkOffsets "abcdefg" 4 6) false None
           eq_refl eq_refl (or_introl eq_refl)).
Defined.

Lemma enclosing_interval_two_selected_spans_witness :
  let host := englishHost (Some demoSynth) demoConf in
  let run := _patchedSpeakSelectionChange host
               (mkOffsets "abcdefg" 3 4) (mkOffsets "abcdefg" 2 5) true true false None in
  selectedTextList run = ["c"%string; "e"%string] /\ unselectedTextList run = [].
Proof.
  assert (Hse : (compareEndPoints (mkOffsets "abcdefg" 2 5) (mkOffsets "abcdefg" 3 4)
                   Which.startToEnd <= 0)%Z) by (vm_compute; discriminate).
  assert (Hes : (0 <= compareEndPoints (mkOffsets "abcdefg" 2 5) (mkOffsets "abcdefg" 3 4)
                   Which.endToStart)%Z) by (vm_compute; discriminate).
  exact (enclosing_interval_two_selected_spans
           (englishHost (Some demoSynth) demoConf)
           (mkOffsets "abcdefg" 3 4) (mkOffsets "abcdefg" 2 5) None
           eq_refl eq_refl Hse Hes eq_refl eq_refl).
Defined.

Lemma both_collapsed_silent_witness :
  let host := englishHost (Some demoSynth) demoConf in
  let run := _patchedSpeakSelectionChange host
               (mkOffsets "abcdefg" 3 3) (mkOffsets "abcdefg" 5 5) true true true (Some NOW) in
  selectedTextList run = [] /\ unselectedTextList run = []
  /\ emitted (outcome run) = [] /\ result (outcome run) = inr tt.
Proof.
  exact (both_collapsed_silent
           (englishHost (Some demoSynth) demoConf)
           (mkOffsets "abcdefg" 3 3) (mkOffsets "abcdefg" 5 5) true true true (Some NOW)
           eq_refl eq_refl).
Defined.

(** ** Properties of the single-character announcement *)

Section SingleCharFacts.

Variable host : Host.

(** With a synthesizer active and configured, the speech built for a
    character is the host's capital notification, called with each cue
    masked by the character's case, filled into the message template. *)
Lemma getSingleCharSelectionSpeech_active
    (synth : Synth) (synthConfig : SynthConfig)
    (char locale : string) (messageTemplate : option string) :
  getSynth host = Some synth ->
  conf_speech host !! name synth = Some synthConfig ->
  _getSingleCharSelectionSpeech host char locale messageTemplate
  = inr (_buildSpeechFromTemplate
           (default (translate host "%s selected") messageTemplate)
           (_getSpellingCharAddCapNotification host
              (processSpeechSymbol host locale char)
              (PyStr.isupper char && sayCapForCapitals synthConfig)
              (if PyStr.isupper char
               then (if bool_decide (PitchCommandClass ∈ supportedCommands synth)
                     then capPitchChange synthConfig else 0%Z)
               else 0%Z)
              (PyStr.isupper char && beepForCapitals synthConfig))).
Proof.
  intros Hs Hc. unfold _getSingleCharSelectionSpeech. rewrite Hs, Hc.
  destruct messageTemplate; reflexivity.
Qed.

Lemma nonEmpty_app_cons {A : Type} (l : list A) (x : A) (l' : list A) :
  nonEmpty (l ++ x :: l') = true.
Proof. destruct l; reflexivity. Qed.

(** C5: for the selected character "A", with a synthesizer active whose
    configuration has "say cap" on and which does not support pitch
    commands, the sequence spoken is the host's capital notification for
    "A" (cap on, pitch offset 0) followed by " selected"; when the host
    composes the notification as the specification describes, that is
    the word "cap", then "A", then " selected", after the tone if the
    beep is on. *)
Theorem selected_capital_A_say_cap
    (synth : Synth) (synthConfig : SynthConfig) (locale : string) (priority : option Spri) :
  getSynth host = Some synth ->
  conf_speech host !! name synth = Some synthConfig ->
  sayCapForCapitals synthConfig = true ->
  PitchCommandClass ∉ supportedCommands synth ->
  translate host "%s selected" = "%s selected"%string ->
  processSpeechSymbol host locale "A" = "A"%string ->
  (forall beep, _getSpellingCharAddCapNotification host "A" true 0 beep
                = capNotification "A" true 0 beep) ->
  let seq := _getSpellingCharAddCapNotification host "A" true 0 (beepForCapitals synthConfig)
             ++ [Text " selected"] in
  _getSingleCharSelectionSpeech host "A" locale None = inr seq
  /\ _speakSingleCharSelected host "A" locale priority = emit (speak seq priority)
  /\ seq = (if beepForCapitals synthConfig then [BeepCommand 2000 50] else [])
           ++ [Text "cap"; Text "A"; Text " selected"].
Proof.
  intros Hs Hc Hcap Hpitch Htr Hsym Hcomp seq.
  assert (Hseq : _getSingleCharSelectionSpeech host "A" locale None = inr seq).
  { rewrite (getSingleCharSelectionSpeech_active synth synthConfig) by assumption.
    rewrite Hcap, Hsym. simpl default. rewrite Htr.
    rewrite bool_decide_eq_false_2 by assumption.
    change (PyStr.isupper "A") with true. simpl andb. cbv iota.
    reflexivity. }
  split; [exact Hseq|]. split.
  - unfold _speakSingleCharSelected. rewrite Hseq.
    unfold mbind, Outcome_bind, bind, lift. simpl.
    subst seq. rewrite nonEmpty_app_cons. reflexivity.
  - subst seq. rewrite Hcomp. unfold capNotification. simpl.
    destruct (beepForCapitals synthConfig); reflexivity.
Qed.

(** C6: for the unselected character "b", with a synthesizer active and
    every capital cue off, exactly the two text segments "b" and
    " unselected" are spoken: the phrase "b unselected", and no command. *)
Theorem unselected_lowercase_b_plain
    (synth : Synth) (synthConfig : SynthConfig) (locale : string) (priority : option Spri) :
  getSynth host = Some synth ->
  conf_speech host !! name synth = Some synthConfig ->
  sayCapForCapitals synthConfig = false ->
  beepForCapitals synthConfig = false ->
  capPitchChange synthConfig = 0%Z ->
  translate host "%s unselected" = "%s unselected"%string ->
  processSpeechSymbol host locale "b" = "b"%string ->
  _getSpellingCharAddCapNotification host "b" false 0 false
    = capNotification "b" false 0 false ->
  let seq := [Text "b"; Text " unselected"] in
  _speakSingleCharUnselected host "b" locale priority = emit (speak seq priority)
  /\ sequenceText seq = "b unselected"%string
  /\ forallb isText seq = true.
Proof.
  intros Hs Hc _ _ _ Htr Hsym Hcomp seq.
  split; [|split; reflexivity].
  unfold _speakSingleCharUnselected.
  rewrite (getSingleCharSelectionSpeech_active synth synthConfig) by assumption.
  rewrite Hsym, Htr. simpl default.
  change (PyStr.isupper "b") with false. simpl andb. cbv iota.
  rewrite Hcomp. reflexivity.
Qed.

End SingleCharFacts.

(** The sequence built from a template and text items holds text only. *)
Lemma buildSpeechFromTemplate_all_text (template : string) (charSequence : SpeechSequence) :
  forallb isText charSequence = true ->
  forallb isText (_buildSpeechFromTemplate template charSequence) = true.
Proof.
  intros Hc. unfold _buildSpeechFromTemplate.
  destruct (PyStr.find_split "%s" template) as [[before after]|].
  - destruct (PyStr.truthy before), (PyStr.truthy after); simpl;
      rewrite ?forallb_app, ?Hc; reflexivity.
  - rewrite forallb_app, Hc. reflexivity.
Qed.

(** C8: with no synthesizer active, the speech for a character is built
    without raising: it is the character as the locale renders it, filled
    into the message template, and holds text only. The configuration
    dictionary and the capital-notification builder play no part: the
    result is the same under any of them, an empty dictionary included. *)
Theorem no_synth_plain_symbol_speech
    (host : Host) (char locale : string) (messageTemplate : option string) :
  getSynth host = None ->
  let seq := _buildSpeechFromTemplate
               (default (translate host "%s selected") messageTemplate)
               [Text (processSpeechSymbol host locale char)] in
  _getSingleCharSelectionSpeech host char locale messageTemplate = inr seq
  /\ (forall conf builder,
        _getSingleCharSelectionSpeech (withoutSynth host conf builder)
          char locale messageTemplate = inr seq)
  /\ forallb isText seq = true.
Proof.
  intros Hs seq. split; [|split].
  - unfold _getSingleCharSelectionSpeech. rewrite Hs.
    destruct messageTemplate; reflexivity.
  - intros conf builder. unfold _getSingleCharSelectionSpeech. simpl.
    destruct messageTemplate; reflexivity.
  - apply buildSpeechFromTemplate_all_text. reflexivity.
Qed.

(** C10: for a character that is not uppercase, with a synthesizer
    active, the speech built is the same under any two configurations of
    that synthesizer: the capital notification is called with cap off,
    pitch offset 0 and beep off, whatever the three settings are. *)
Theorem non_uppercase_ignores_cap_settings
    (host : Host) (synth : Synth) (config1 config2 : SynthConfig)
    (char locale : string) (messageTemplate : option string) :
  getSynth host = Some synth ->
  PyStr.isupper char = false ->
  _getSingleCharSelectionSpeech (withSynthConfig host (name synth) config1)
    char locale messageTemplate
  = _getSingleCharSelectionSpeech (withSynthConfig host (name synth) config2)
      char locale messageTemplate
  /\ _getSingleCharSelectionSpeech (withSynthConfig host (name synth) config1)
       char locale messageTemplate
     = inr (_buildSpeechFromTemplate
              (default (translate host "%s selected") messageTemplate)
              (_getSpellingCharAddCapNotification host
                 (processSpeechSymbol host locale char) false 0 false)).
Proof.
  intros Hs Hup.
  assert (Hany : forall config,
    _getSingleCharSelectionSpeech (withSynthConfig host (name synth) config)
      char locale messageTemplate
    = inr (_buildSpeechFromTemplate
             (default (translate host "%s selected") messageTemplate)
             (_getSpellingCharAddCapNotification host
                (processSpeechSymbol host locale char) false 0 false))).
  { intros config.
    rewrite (getSingleCharSelectionSpeech_active _ synth config).
    - rewrite Hup. reflexivity.
    - exact Hs.
    - simpl. apply lookup_insert_eq. }
  split; [by rewrite !Hany | apply Hany].
Qed.

(** ** Properties of installation and removal *)

(** C9: [terminate] puts the saved entry point back and clears the saved
    reference when one is saved; it leaves both variables as they are
    when none is saved. Hence a second [terminate] changes nothing, and
    [terminate] after [__init__] brings the host's entry point back. *)
Theorem terminate_restores_or_does_nothing (g : Globals) :
  (forall original,
     _originalSpeakSelectionChange g = Some original ->
     GlobalPlugin.terminate g = mkGlobals original None)
  /\ (_originalSpeakSelectionChange g = None -> GlobalPlugin.terminate g = g)
  /\ GlobalPlugin.terminate (GlobalPlugin.terminate g) = GlobalPlugin.terminate g
  /\ GlobalPlugin.terminate (GlobalPlugin.__init__ g)
     = mkGlobals (speech_speakSelectionChange g) None.
Proof.
  unfold GlobalPlugin.terminate, GlobalPlugin.__init__.
  destruct g as [current [saved|]]; simpl; repeat split; try reflexivity; try discriminate.
  intros original [= ->]. reflexivity.
Qed.

(** ** The generalize branch for a single character *)

(** C4: in generalize mode, with the previous selection "A" replaced by
    the one-character selection "b", the unselected list is not empty and
    the new interval is not collapsed, yet the character is announced
    through the "%s unselected" template: the call speaks "b", then
    " unselected", and not "b", then " selected instead". A new selection
    of two characters in the same place does go through
    "%s selected instead". *)
Theorem generalize_single_char_spoken_as_unselected :
  let host := englishHost (Some demoSynth) quietConf in
  let oldInfo := mkOffsets "Abc" 0 1 in
  let newInfo := mkOffsets "Abc" 1 2 in
  let run := _patchedSpeakSelectionChange host oldInfo newInfo false true true None in
  let longer := _patchedSpeakSelectionChange host oldInfo (mkOffsets "Abc" 1 3)
                  false true true None in
  unselectedTextList run = ["A"%string]
  /\ isCollapsed newInfo = false
  /\ text newInfo = "b"%string
  /\ emitted (outcome run) = [speak [Text "b"; Text " unselected"] None]
  /\ emitted (outcome run)
     <> [speak (_buildSpeechFromTemplate (translate host "%s selected instead")
                  (_getSpellingCharAddCapNotification host "b" false 0 false)) None]
  /\ emitted (outcome longer) = [speakSelectionMessage "%s selected instead" "bc" None].
Proof.
  vm_compute. repeat split; discriminate.
Qed.

(** ** The theorems at concrete inputs *)

Lemma selected_capital_A_say_cap_witness :
  let host := englishHost (Some demoSynth) demoConf in
  let seq := [Text "cap"; Text "A"; Text " selected"] in
  _getSingleCharSelectionSpeech host "A" "en" None = inr seq
  /\ _speakSingleCharSelected host "A" "en" (Some NOW) = emit (speak seq (Some NOW))
  /\ seq = [] ++ [Text "cap"; Text "A"; Text " selected"].
Proof.
  assert (Hc : conf_speech (englishHost (Some demoSynth) demoConf) !! name demoSynth
               = Some (mkSynthConfig 30 true false)) by (vm_compute; reflexivity).
  assert (Hp : PitchCommandClass ∉ supportedCommands demoSynth)
    by (intros Hin; apply list_elem_of_In in Hin; simpl in Hin;
        destruct Hin as [Hin | []]; discriminate Hin).
  exact (selected_capital_A_say_cap (englishHost (Some demoSynth) demoConf)
           demoSynth (mkSynthConfig 30 true false) "en" (Some NOW)
           eq_refl Hc eq_refl Hp eq_refl eq_refl (fun _ => eq_refl)).
Defined.

Lemma unselected_lowercase_b_plain_witness :
  let host := englishHost (Some pitchSynth) quietConf in
  let seq := [Text "b"; Text " unselected"] in
  _speakSingleCharUnselected host "b" "en" None = emit (speak seq None)
  /\ sequenceText seq = "b unselected"%string
  /\ forallb isText seq = true.
Proof.
  assert (Hc : conf_speech (englishHost (Some pitchSynth) quietConf) !! name pitchSynth
               = Some (mkSynthConfig 0 false false)) by (vm_compute; reflexivity).
  exact (unselected_lowercase_b_plain (englishHost (Some pitchSynth) quietConf)
           pitchSynth (mkSynthConfig 0 false false) "en" None
           eq_refl Hc eq_refl eq_refl eq_refl eq_refl eq_refl eq_refl).
Defined.

Lemma no_synth_plain_symbol_speech_witness :
  let host := englishHost None ∅ in
  let seq := [Text "A"; Text " selected"] in
  _getSingleCharSelectionSpeech host "A" "en" None = inr seq
  /\ (forall conf builder,
        _getSingleCharSelectionSpeech (withoutSynth host conf builder) "A" "en" None
        = inr seq)
  /\ forallb isText seq = true.
Proof.
  exact (no_synth_plain_symbol_speech (englishHost None ∅) "A" "en" None eq_refl).
Defined.

Lemma non_uppercase_ignores_cap_settings_witness :
  let host := englishHost (Some pitchSynth) demoConf in
  let loud := mkSynthConfig 30 true true in
  let quiet := mkSynthConfig 0 false false in
  _getSingleCharSelectionSpeech (withSynthConfig host "pitch" loud) "b" "en" None
  = _getSingleCharSelectionSpeech (withSynthConfig host "pitch" quiet) "b" "en" None
  /\ _getSingleCharSelectionSpeech (withSynthConfig host "pitch" loud) "b" "en" None
     = inr [Text "b"; Text " selected"].
Proof.
  exact (non_uppercase_ignores_cap_settings (englishHost (Some pitchSynth) demoConf)
           pitchSynth (mkSynthConfig 30 true true) (mkSynthConfig 0 false false)
           "b" "en" None eq_refl eq_refl).
Defined.

(** The same character under the same two configurations, once it is
    uppercase, is spoken differently: the case of the character is what
    switches the cues off. *)
Example uppercase_depends_on_cap_settings :
  let host := englishHost (Some pitchSynth) demoConf in
  _getSingleCharSelectionSpeech (withSynthConfig host "pitch" (mkSynthConfig 30 true true))
    "B" "en" None
  = inr [PitchCommand 30; BeepCommand 2000 50; Text "cap"; Text "B"; PitchCommand 0;
         Text " selected"]
  /\ _getSingleCharSelectionSpeech (withSynthConfig host "pitch" (mkSynthConfig 0 false false))
       "B" "en" None
     = inr [Text "B"; Text " selected"].
Proof. vm_compute. split; reflexivity. Qed.

(** A synthesizer that is active but has no section in the configuration
    dictionary makes the lookup raise. *)
Example missing_config_raises :
  _getSingleCharSelectionSpeech (englishHost (Some demoSynth) ∅) "A" "en" None
  = inl (KeyError "demo").
Proof. vm_compute. reflexivity. Qed.

(** Installing, then removing twice, on the host's own entry point. *)
Example install_then_terminate_twice :
  let g0 := mkGlobals hostSpeakSelectionChange None in
  GlobalPlugin.__init__ g0 = mkGlobals patchedSpeakSelectionChange (Some hostSpeakSelectionChange)
  /\ GlobalPlugin.terminate (GlobalPlugin.__init__ g0) = g0
  /\ GlobalPlugin.terminate (GlobalPlugin.terminate (GlobalPlugin.__init__ g0)) = g0
  /\ GlobalPlugin.terminate g0 = g0.
Proof. repeat split. Qed.

(** ** More on [_buildSpeechFromTemplate] *)

Lemma find_split_cons (sep : string) (c : ascii) (s : string) :
  PyStr.find_split sep (String c s)
  = if PyStr.startswith sep (String c s)
    then Some (EmptyString, PyStr.drop (String.length sep) (String c s))
    else match PyStr.find_split sep s with
         | Some (before, after) => Some (String c before, after)
         | None => None
         end.
Proof. reflexivity. Qed.

Lemma startswith_placeholder (c : ascii) (s : string) :
  PyStr.startswith "%s" (String c s)
  = Ascii.eqb "%" c
    && match s with String d _ => Ascii.eqb "s" d | EmptyString => false end.
Proof.
  change (PyStr.startswith "%s" (String c s))
    with (if Ascii.eqb "%" c then PyStr.startswith "s" s else false).
  destruct (Ascii.eqb "%" c); [|reflexivity].
  destruct s as [|d s]; [reflexivity|].
  change (PyStr.startswith "s" (String d s)) with (if Ascii.eqb "s" d then true else false).
  destruct (Ascii.eqb "s" d); reflexivity.
Qed.

(** Where "%s" first occurs: a text with no "%s" in it, followed by "%s",
    splits right there, whatever comes after. *)
Lemma find_split_first (before after : string) :
  PyStr.find_split "%s" before = None ->
  PyStr.find_split "%s" (before +:+ "%s" +:+ after) = Some (before, after).
Proof.
  induction before as [|c before IH]; intros Hn.
  - reflexivity.
  - rewrite append_cons.
    rewrite find_split_cons in Hn. rewrite find_split_cons.
    assert (Hs : PyStr.startswith "%s" (String c (before +:+ "%s" +:+ after)) = false).
    { rewrite startswith_placeholder in Hn. rewrite startswith_placeholder.
      destruct (Ascii.eqb "%" c); [|reflexivity].
      destruct before as [|d before']; [reflexivity|].
      rewrite append_cons. cbv beta iota delta [andb] in Hn |- *.
      destruct (Ascii.eqb "s" d); [discriminate Hn | reflexivity]. }
    rewrite Hs.
    destruct (PyStr.startswith "%s" (String c before)); [discriminate Hn|].
    rewrite IH; [reflexivity|].
    destruct (PyStr.find_split "%s" before) as [[b a]|]; [discriminate Hn | reflexivity].
Qed.

(** X1: only the first placeholder is filled. For a template made of a
    text without "%s", then "%s", then any text, the result is the text
    before (when not empty), the character sequence, and the text after
    (when not empty), with any later "%s" left in it as it is. *)
Theorem buildSpeechFromTemplate_first_placeholder
    (before after : string) (charSequence : SpeechSequence) :
  PyStr.contains "%s" before = false ->
  _buildSpeechFromTemplate (before +:+ "%s" +:+ after) charSequence
  = templatePart before ++ charSequence ++ templatePart after.
Proof.
  intros Hn. unfold _buildSpeechFromTemplate.
  rewrite find_split_first.
  - unfold templatePart.
    destruct (PyStr.truthy before), (PyStr.truthy after); simpl;
      rewrite <- ?app_assoc, ?app_nil_r; reflexivity.
  - unfold PyStr.contains in Hn.
    destruct (PyStr.find_split "%s" before); [discriminate Hn | reflexivity].
Qed.

Lemma buildSpeechFromTemplate_first_placeholder_witness :
  PyStr.contains "%s" "selected " = false
  /\ _buildSpeechFromTemplate "selected %s, not %s" [Text "cap"; Text "A"]
     = [Text "selected "; Text "cap"; Text "A"; Text ", not %s"].
Proof.
  split; [reflexivity|].
  exact (buildSpeechFromTemplate_first_placeholder "selected " ", not %s"
           [Text "cap"; Text "A"] eq_refl).
Defined.

Lemma templatePart_text (part : string) : sequenceText (templatePart part) = part.
Proof. destruct part; [reflexivity|]. unfold templatePart. simpl. by rewrite append_empty_r. Qed.

Lemma templatePart_length (part : string) : List.length (templatePart part) <= 1.
Proof. unfold templatePart. destruct (PyStr.truthy part); simpl; lia. Qed.

Lemma templatePart_all_text (part : string) : forallb isText (templatePart part) = true.
Proof. unfold templatePart. destruct (PyStr.truthy part); reflexivity. Qed.

(** The result as a frame around the character sequence. *)
Lemma buildSpeechFromTemplate_split (template before after : string)
    (charSequence : SpeechSequence) :
  PyStr.find_split "%s" template = Some (before, after) ->
  _buildSpeechFromTemplate template charSequence
  = templatePart before ++ charSequence ++ templatePart after.
Proof.
  intros Hf. unfold _buildSpeechFromTemplate, templatePart. rewrite Hf.
  destruct (PyStr.truthy before), (PyStr.truthy after); simpl;
    rewrite <- ?app_assoc, ?app_nil_r; reflexivity.
Qed.

(** X2: the character sequence comes out whole and in order, with at most
    one item put before it and at most one after it, both text. When the
    template has a placeholder, the two items are the template's wording
    around it: joined by "%s" they give the template back. When it has
    none, nothing is put before and the whole template comes after. *)
Theorem buildSpeechFromTemplate_frame (template : string) (charSequence : SpeechSequence) :
  exists pre post,
    _buildSpeechFromTemplate template charSequence = pre ++ charSequence ++ post
    /\ List.length pre <= 1
    /\ List.length post <= 1
    /\ forallb isText (pre ++ post) = true
    /\ (if PyStr.contains "%s" template
        then template = sequenceText pre +:+ "%s" +:+ sequenceText post
        else pre = [] /\ post = [Text template]).
Proof.
  unfold PyStr.contains.
  destruct (PyStr.find_split "%s" template) as [[before after]|] eqn:Hf.
  - exists (templatePart before), (templatePart after).
    rewrite (buildSpeechFromTemplate_split _ _ _ _ Hf).
    rewrite forallb_app, !templatePart_all_text, !templatePart_text.
    repeat split; auto using templatePart_length.
    apply find_split_app, Hf.
  - exists [], [Text template]. unfold _buildSpeechFromTemplate. rewrite Hf.
    simpl. repeat split; lia.
Qed.

Lemma buildSpeechFromTemplate_nil_inv (template : string) (charSequence : SpeechSequence) :
  _buildSpeechFromTemplate template charSequence = [] ->
  charSequence = [] /\ template = "%s"%string.
Proof.
  destruct (PyStr.find_split "%s" template) as [[before after]|] eqn:Hf.
  - rewrite (buildSpeechFromTemplate_split _ _ _ _ Hf). intros He.
    apply app_eq_nil in He as [Hb He]. apply app_eq_nil in He as [Hc Ha].
    split; [exact Hc|].
    rewrite (find_split_app _ _ _ _ Hf).
    destruct before; [|discriminate Hb]. destruct after; [|discriminate Ha].
    reflexivity.
  - unfold _buildSpeechFromTemplate. rewrite Hf. intros He.
    apply app_eq_nil in He as [_ He]. discriminate He.
Qed.

(** X3: the result is empty in one case only: an empty character
    sequence filled into the template "%s". Any other template, the empty
    one included, leaves at least one item to speak. *)
Theorem buildSpeechFromTemplate_empty_iff (template : string) (charSequence : SpeechSequence) :
  _buildSpeechFromTemplate template charSequence = []
  <-> charSequence = [] /\ template = "%s"%string.
Proof.
  split; [apply buildSpeechFromTemplate_nil_inv | intros [-> ->]; reflexivity].
Qed.

Lemma buildSpeechFromTemplate_nonEmpty (template : string) (charSequence : SpeechSequence) :
  nonEmpty charSequence = true ->
  nonEmpty (_buildSpeechFromTemplate template charSequence) = true.
Proof.
  intros Hc.
  destruct (_buildSpeechFromTemplate template charSequence) eqn:Hb; [|reflexivity].
  apply buildSpeechFromTemplate_nil_inv in Hb as [-> _]. discriminate Hc.
Qed.

(** ** More on the single-character announcements *)

(** X4: with no synthesizer active, a single character is always
    announced: each of the two speak functions makes exactly one [speak]
    call, with the priority it was given, and returns. The sequence is
    the character as the locale renders it in the function's template. *)
Theorem no_synth_single_char_spoken_once
    (host : Host) (char locale : string) (priority : option Spri) :
  getSynth host = None ->
  _speakSingleCharSelected host char locale priority
  = emit (speak (_buildSpeechFromTemplate (translate host "%s selected")
                   [Text (processSpeechSymbol host locale char)]) priority)
  /\ _speakSingleCharUnselected host char locale priority
     = emit (speak (_buildSpeechFromTemplate (translate host "%s unselected")
                      [Text (processSpeechSymbol host locale char)]) priority).
Proof.
  intros Hs.
  unfold _speakSingleCharSelected, _speakSingleCharUnselected,
    _getSingleCharSelectionSpeech.
  rewrite Hs. unfold mbind, Outcome_bind, bind, lift. simpl.
  rewrite !buildSpeechFromTemplate_nonEmpty by reflexivity.
  split; reflexivity.
Qed.

Lemma no_synth_single_char_spoken_once_witness :
  let host := englishHost None ∅ in
  _speakSingleCharSelected host "A" "en" (Some NEXT)
  = emit (speak [Text "A"; Text " selected"] (Some NEXT))
  /\ _speakSingleCharUnselected host "A" "en" (Some NEXT)
     = emit (speak [Text "A"; Text " unselected"] (Some NEXT)).
Proof.
  exact (no_synth_single_char_spoken_once (englishHost None ∅) "A" "en" (Some NEXT) eq_refl).
Defined.

(** X5: for a synthesizer that does not list the pitch command among its
    supported commands, the configured pitch change plays no part, for an
    uppercase character as for any other: the capital notification is
    asked for pitch offset 0 under every value of the setting. *)
Theorem pitch_unsupported_ignores_capPitchChange
    (host : Host) (synth : Synth) (pitch1 pitch2 : Z) (sayCap beep : bool)
    (char locale : string) (messageTemplate : option string) :
  getSynth host = Some synth ->
  PitchCommandClass ∉ supportedCommands synth ->
  _getSingleCharSelectionSpeech
    (withSynthConfig host (name synth) (mkSynthConfig pitch1 sayCap beep))
    char locale messageTemplate
  = _getSingleCharSelectionSpeech
      (withSynthConfig host (name synth) (mkSynthConfig pitch2 sayCap beep))
      char locale messageTemplate
  /\ _getSingleCharSelectionSpeech
       (withSynthConfig host (name synth) (mkSynthConfig pitch1 sayCap beep))
       char locale messageTemplate
     = inr (_buildSpeechFromTemplate
              (default (translate host "%s selected") messageTemplate)
              (_getSpellingCharAddCapNotification host
                 (processSpeechSymbol host locale char)
                 (PyStr.isupper char && sayCap) 0 (PyStr.isupper char && beep))).
Proof.
  intros Hs Hp.
  assert (Hany : forall pitch,
    _getSingleCharSelectionSpeech
      (withSynthConfig host (name synth) (mkSynthConfig pitch sayCap beep))
      char locale messageTemplate
    = inr (_buildSpeechFromTemplate
             (default (translate host "%s selected") messageTemplate)
             (_getSpellingCharAddCapNotification host
                (processSpeechSymbol host locale char)
                (PyStr.isupper char && sayCap) 0 (PyStr.isupper char && beep)))).
  { intros pitch.
    rewrite (getSingleCharSelectionSpeech_active _ synth (mkSynthConfig pitch sayCap beep)).
    - rewrite bool_decide_eq_false_2 by exact Hp.
      simpl. destruct (PyStr.isupper char); reflexivity.
    - exact Hs.
    - simpl. apply lookup_insert_eq. }
  split; [by rewrite !Hany | apply Hany].
Qed.

Lemma pitch_unsupported_ignores_capPitchChange_witness :
  let host := englishHost (Some demoSynth) demoConf in
  _getSingleCharSelectionSpeech (withSynthConfig host "demo" (mkSynthConfig 30 true true))
    "A" "en" None
  = _getSingleCharSelectionSpeech (withSynthConfig host "demo" (mkSynthConfig (-5) true true))
      "A" "en" None
  /\ _getSingleCharSelectionSpeech (withSynthConfig host "demo" (mkSynthConfig 30 true true))
       "A" "en" None
     = inr [BeepCommand 2000 50; Text "cap"; Text "A"; Text " selected"].
Proof.
  assert (Hp : PitchCommandClass ∉ supportedCommands demoSynth)
    by (intros Hin; apply list_elem_of_In in Hin; simpl in Hin;
        destruct Hin as [Hin | []]; discriminate Hin).
  exact (pitch_unsupported_ignores_capPitchChange (englishHost (Some demoSynth) demoConf)
           demoSynth 30 (-5) true true "A" "en" None eq_refl Hp).
Defined.

(** ** More on [_patchedSpeakSelectionChange] *)

Lemma then_ret (m : Outcome unit) : (m ;; ret tt) = m.
Proof.
  destruct m as [calls [e|[]]]; unfold mbind, Outcome_bind, bind; simpl;
    [reflexivity | by rewrite app_nil_r].
Qed.

Lemma ret_then (k : Outcome unit) : (ret tt ;; k) = k.
Proof. destruct k. reflexivity. Qed.

Lemma forEach_one {A : Type} (body : A -> Outcome unit) (x : A) :
  forEach body [x] = body x.
Proof. simpl. apply then_ret. Qed.

Section AnnounceFacts.

Context {T : Type} `{TextInfo T}.
Variable host : Host.

(** Past the early return, the outcome of a run is that of [announce] on
    the two lists. *)
Lemma patched_run (oldInfo newInfo : T) (speakSelected speakUnselected generalize : bool)
    (priority : option Spri) (selected unselected : list string) :
  isCollapsed newInfo && isCollapsed oldInfo = false ->
  buildTextLists oldInfo newInfo speakSelected speakUnselected = (selected, unselected) ->
  _patchedSpeakSelectionChange host oldInfo newInfo
    speakSelected speakUnselected generalize priority
  = mkRun selected unselected
      (announce host newInfo selected unselected
         speakSelected speakUnselected generalize priority).
Proof.
  intros Hc Hl. unfold _patchedSpeakSelectionChange. rewrite Hc, Hl. reflexivity.
Qed.

Lemma buildTextLists_started (oldInfo newInfo : T) (speakUnselected : bool) :
  isCollapsed oldInfo = true ->
  buildTextLists oldInfo newInfo true speakUnselected = ([text newInfo], []).
Proof. intros Ho. unfold buildTextLists. rewrite Ho. reflexivity. Qed.

Lemma buildTextLists_cleared (oldInfo newInfo : T) (speakSelected : bool) :
  isCollapsed oldInfo = false ->
  isCollapsed newInfo = true ->
  buildTextLists oldInfo newInfo speakSelected true = ([], [text oldInfo]).
Proof.
  intros Ho Hn. unfold buildTextLists. rewrite Ho, Hn, andb_false_r. reflexivity.
Qed.

Lemma buildTextLists_disjoint (oldInfo newInfo : T) :
  isCollapsed oldInfo = false ->
  isCollapsed newInfo = false ->
  (0 < compareEndPoints newInfo oldInfo Which.startToEnd
   \/ compareEndPoints newInfo oldInfo Which.endToStart < 0)%Z ->
  buildTextLists oldInfo newInfo true true = ([text newInfo], [text oldInfo]).
Proof.
  intros Ho Hn Hd. unfold buildTextLists. rewrite Ho, Hn. simpl.
  replace ((0 <? compareEndPoints newInfo oldInfo Which.startToEnd)%Z
           || (compareEndPoints newInfo oldInfo Which.endToStart <? 0)%Z) with true.
  - reflexivity.
  - symmetry. apply orb_true_iff. destruct Hd; [left | right]; by apply Z.ltb_lt.
Qed.

(** The announcements made for one selected text and no unselected one. *)
Lemma announce_one_selected (newInfo : T) (speakUnselected generalize : bool)
    (priority : option Spri) :
  announce host newInfo [text newInfo] [] true speakUnselected generalize priority
  = selectedAnnouncement host (text newInfo) (getCurrentLanguage host) priority.
Proof.
  unfold announce.
  assert (Hsel :
    (if negb generalize
     then forEach (fun text =>
            if (String.length text =? 1)%nat
            then _speakSingleCharSelected host text (getCurrentLanguage host) priority
            else emit (speakTextSelected text priority)) [text newInfo]
     else if (0 <? List.length [text newInfo])%nat
          then (if (String.length (text newInfo) =? 1)%nat
                then _speakSingleCharSelected host (text newInfo) (getCurrentLanguage host) priority
                else emit (speakTextSelected (text newInfo) priority))
          else ret tt)
    = selectedAnnouncement host (text newInfo) (getCurrentLanguage host) priority).
  { destruct generalize; [reflexivity | simpl negb; cbv iota; rewrite forEach_one; reflexivity]. }
  cbv zeta. rewrite Hsel.
  destruct speakUnselected, generalize; simpl; apply then_ret.
Qed.

(** The announcements made for one unselected text and no selected one,
    when the new interval is collapsed. *)
Lemma announce_one_unselected (newInfo : T) (old_text : string)
    (speakSelected generalize : bool) (priority : option Spri) :
  isCollapsed newInfo = true ->
  announce host newInfo [] [old_text] speakSelected true generalize priority
  = if generalize
    then emit (speakMessage (translate host "selection removed") priority)
    else unselectedAnnouncement host old_text (getCurrentLanguage host) priority.
Proof.
  intros Hn. unfold announce. cbv zeta.
  assert (Hsel :
    (if speakSelected
     then if negb generalize
          then forEach (fun text =>
                 if (String.length text =? 1)%nat
                 then _speakSingleCharSelected host text (getCurrentLanguage host) priority
                 else emit (speakTextSelected text priority)) []
          else if (0 <? List.length (@nil string))%nat
               then (if (String.length (text newInfo) =? 1)%nat
                     then _speakSingleCharSelected host (text newInfo)
                            (getCurrentLanguage host) priority
                     else emit (speakTextSelected (text newInfo) priority))
               else ret tt
     else ret tt) = ret tt).
  { destruct speakSelected, generalize; reflexivity. }
  rewrite Hsel, ret_then, Hn.
  destruct generalize; [reflexivity | simpl negb; cbv iota; rewrite forEach_one; reflexivity].
Qed.

(** X6: when a selection starts from a collapsed interval and selected
    text is to be spoken, the whole text of the new interval is the one
    selected text, nothing is unselected, and the call makes the one
    announcement for that text, in generalize mode as without it: the
    single-character speech for one character, the host's
    [speakTextSelected] for anything else. *)
Theorem selection_started_announced_once (oldInfo newInfo : T)
    (speakUnselected generalize : bool) (priority : option Spri) :
  isCollapsed oldInfo = true ->
  isCollapsed newInfo = false ->
  let run := _patchedSpeakSelectionChange host oldInfo newInfo
               true speakUnselected generalize priority in
  selectedTextList run = [text newInfo]
  /\ unselectedTextList run = []
  /\ outcome run
     = selectedAnnouncement host (text newInfo) (getCurrentLanguage host) priority.
Proof.
  intros Ho Hn run. subst run.
  rewrite (patched_run _ _ _ _ _ _ [text newInfo] [])
    by (by rewrite ?Hn; try apply buildTextLists_started).
  simpl. repeat split. apply announce_one_selected.
Qed.

(** X7: when a selection is cleared (the previous interval is not
    collapsed, the new one is) and unselected text is to be spoken, the
    whole previous text is the one unselected text and nothing is
    selected. In generalize mode the call speaks the message
    "selection removed" and nothing else; otherwise it makes the one
    unselected announcement for the previous text. *)
Theorem selection_cleared_announced_once (oldInfo newInfo : T)
    (speakSelected generalize : bool) (priority : option Spri) :
  isCollapsed oldInfo = false ->
  isCollapsed newInfo = true ->
  let run := _patchedSpeakSelectionChange host oldInfo newInfo
               speakSelected true generalize priority in
  selectedTextList run = []
  /\ unselectedTextList run = [text oldInfo]
  /\ outcome run
     = if generalize
       then emit (speakMessage (translate host "selection removed") priority)
       else unselectedAnnouncement host (text oldInfo) (getCurrentLanguage host) priority.
Proof.
  intros Ho Hn run. subst run.
  rewrite (patched_run _ _ _ _ _ _ [] [text oldInfo])
    by (by rewrite ?Ho, ?andb_false_r; try apply buildTextLists_cleared).
  simpl. repeat split. by apply announce_one_unselected.
Qed.

End AnnounceFacts.

Lemma selection_started_announced_once_witness :
  let host := englishHost (Some demoSynth) demoConf in
  let run := _patchedSpeakSelectionChange host
               (mkOffsets "Hello" 0 0) (mkOffsets "Hello" 0 1) true true true None in
  selectedTextList run = ["H"%string]
  /\ unselectedTextList run = []
  /\ outcome run = emit (speak [Text "cap"; Text "H"; Text " selected"] None).
Proof.
  exact (selection_started_announced_once (englishHost (Some demoSynth) demoConf)
           (mkOffsets "Hello" 0 0) (mkOffsets "Hello" 0 1) true true None
           eq_refl eq_refl).
Defined.

Lemma selection_cleared_announced_once_witness :
  let host := englishHost (Some demoSynth) demoConf in
  let run := _patchedSpeakSelectionChange host
               (mkOffsets "Hello" 0 2) (mkOffsets "Hello" 2 2) true true true (Some NOW) in
  selectedTextList run = []
  /\ unselectedTextList run = ["He"%string]
  /\ outcome run = emit (speakMessage "selection removed" (Some NOW)).
Proof.
  exact (selection_cleared_announced_once (englishHost (Some demoSynth) demoConf)
           (mkOffsets "Hello" 0 2) (mkOffsets "Hello" 2 2) true true (Some NOW)
           eq_refl eq_refl).
Defined.

(** ** Errors and what was spoken before them *)

Lemma getSingleCharSelectionSpeech_missing
    (host : Host) (synth : Synth) (char locale : string) (messageTemplate : option string) :
  getSynth host = Some synth ->
  conf_speech host !! name synth = None ->
  _getSingleCharSelectionSpeech host char locale messageTemplate
  = inl (KeyError (name synth)).
Proof.
  intros Hs Hc. unfold _getSingleCharSelectionSpeech. rewrite Hs, Hc. reflexivity.
Qed.

(** X8: when a synthesizer is active but the configuration dictionary
    has no section under its name, both speak functions raise the
    [KeyError] of that name and speak nothing, whatever the character. *)
Theorem missing_section_single_char_raises
    (host : Host) (synth : Synth) (char locale : string) (priority : option Spri) :
  getSynth host = Some synth ->
  conf_speech host !! name synth = None ->
  _speakSingleCharSelected host char locale priority
  = mkOutcome [] (inl (KeyError (name synth)))
  /\ _speakSingleCharUnselected host char locale priority
     = mkOutcome [] (inl (KeyError (name synth))).
Proof.
  intros Hs Hc. unfold _speakSingleCharSelected, _speakSingleCharUnselected.
  rewrite !(getSingleCharSelectionSpeech_missing host synth) by assumption.
  split; reflexivity.
Qed.

Lemma missing_section_single_char_raises_witness :
  let host := englishHost (Some demoSynth) ∅ in
  _speakSingleCharSelected host "A" "en" None = mkOutcome [] (inl (KeyError "demo"))
  /\ _speakSingleCharUnselected host "A" "en" None = mkOutcome [] (inl (KeyError "demo")).
Proof.
  exact (missing_section_single_char_raises (englishHost (Some demoSynth) ∅)
           demoSynth "A" "en" None eq_refl eq_refl).
Defined.

Section ErrorFacts.

Context {T : Type} `{TextInfo T}.
Variable host : Host.

(** Without generalize and with both flags set, [announce] is the loop
    over the selected texts followed by the loop over the unselected
    ones. *)
Lemma announce_loops (newInfo : T) (selected unselected : list string)
    (priority : option Spri) :
  announce host newInfo selected unselected true true false priority
  = (forEach (fun text =>
       selectedAnnouncement host text (getCurrentLanguage host) priority) selected ;;
     forEach (fun text =>
       unselectedAnnouncement host text (getCurrentLanguage host) priority) unselected).
Proof. reflexivity. Qed.

(** X9: an exception does not take back what was spoken. When the new
    interval lies apart from the previous one, the new text is not a
    single character and the previous text is one, and the active
    synthesizer has no configuration section, the call first announces the
    new text through the host's [speakTextSelected] and then raises the
    [KeyError] met while building the unselected character's speech. *)
Theorem disjoint_missing_section_speaks_then_raises (oldInfo newInfo : T)
    (synth : Synth) (priority : option Spri) :
  isCollapsed oldInfo = false ->
  isCollapsed newInfo = false ->
  (0 < compareEndPoints newInfo oldInfo Which.startToEnd
   \/ compareEndPoints newInfo oldInfo Which.endToStart < 0)%Z ->
  String.length (text newInfo) <> 1 ->
  String.length (text oldInfo) = 1 ->
  getSynth host = Some synth ->
  conf_speech host !! name synth = None ->
  outcome (_patchedSpeakSelectionChange host oldInfo newInfo true true false priority)
  = mkOutcome [speakTextSelected (text newInfo) priority] (inl (KeyError (name synth))).
Proof.
  intros Ho Hn Hd Hlen_new Hlen_old Hs Hc.
  rewrite (patched_run _ _ _ _ _ _ _ [text newInfo] [text oldInfo])
    by (by rewrite ?Hn; try apply buildTextLists_disjoint).
  simpl outcome. rewrite announce_loops, !forEach_one.
  unfold selectedAnnouncement, unselectedAnnouncement.
  apply Nat.eqb_neq in Hlen_new. apply Nat.eqb_eq in Hlen_old.
  rewrite Hlen_new, Hlen_old.
  unfold _speakSingleCharUnselected.
  rewrite (getSingleCharSelectionSpeech_missing host synth) by assumption.
  reflexivity.
Qed.

End ErrorFacts.

Lemma disjoint_missing_section_speaks_then_raises_witness :
  outcome (_patchedSpeakSelectionChange (englishHost (Some demoSynth) ∅)
             (mkOffsets "abcdefg" 1 2) (mkOffsets "abcdefg" 4 6) true true false None)
  = mkOutcome [speakTextSelected "ef" None] (inl (KeyError "demo")).
Proof.
  assert (Hlen : String.length (text (mkOffsets "abcdefg" 4 6)) <> 1)
    by (vm_compute; discriminate).
  exact (disjoint_missing_section_speaks_then_raises (englishHost (Some demoSynth) ∅)
           (mkOffsets "abcdefg" 1 2) (mkOffsets "abcdefg" 4 6) demoSynth None
           eq_refl eq_refl (or_introl eq_refl) Hlen eq_refl eq_refl eq_refl).
Defined.

(** ** Selecting and deselecting one character *)

(** With a synthesizer active and configured, each speak function makes
    its one [speak] call when the sequence built is not empty. *)
Lemma speakSingleChar_active
    (host : Host) (synth : Synth) (synthConfig : SynthConfig)
    (char locale : string) (priority : option Spri) (charSequence : SpeechSequence) :
  getSynth host = Some synth ->
  conf_speech host !! name synth = Some synthConfig ->
  charSequence
  = _getSpellingCharAddCapNotification host
      (processSpeechSymbol host locale char)
      (PyStr.isupper char && sayCapForCapitals synthConfig)
      (if PyStr.isupper char
       then (if bool_decide (PitchCommandClass ∈ supportedCommands synth)
             then capPitchChange synthConfig else 0%Z)
       else 0%Z)
      (PyStr.isupper char && beepForCapitals synthConfig) ->
  nonEmpty charSequence = true ->
  _speakSingleCharSelected host char locale priority
  = emit (speak (_buildSpeechFromTemplate (translate host "%s selected") charSequence)
            priority)
  /\ _speakSingleCharUnselected host char locale priority
     = emit (speak (_buildSpeechFromTemplate (translate host "%s unselected") charSequence)
               priority).
Proof.
  intros Hs Hc -> Hne.
  unfold _speakSingleCharSelected, _speakSingleCharUnselected.
  rewrite !(getSingleCharSelectionSpeech_active host synth synthConfig) by assumption.
  unfold mbind, Outcome_bind, bind, lift. simpl.
  rewrite !buildSpeechFromTemplate_nonEmpty by exact Hne.
  split; reflexivity.
Qed.

Section SelectDeselect.

Context {T : Type} `{TextInfo T}.
Variable host : Host.

(** X10: selecting one character and then clearing the selection gives
    two announcements, one per call. With a synthesizer active and
    configured, and the host's capital notification for the character
    not empty, the first call (from a collapsed interval to the
    character) speaks the notification in the "%s selected" template, the
    second (from the character to a collapsed interval) speaks the same
    notification in the "%s unselected" template; each call makes that
    one [speak] call and returns. *)
Theorem select_then_deselect_single_char (caret caret' charInfo : T)
    (synth : Synth) (synthConfig : SynthConfig) (priority : option Spri) :
  isCollapsed caret = true ->
  isCollapsed caret' = true ->
  isCollapsed charInfo = false ->
  String.length (text charInfo) = 1 ->
  getSynth host = Some synth ->
  conf_speech host !! name synth = Some synthConfig ->
  let uppercase := PyStr.isupper (text charInfo) in
  let charSequence :=
    _getSpellingCharAddCapNotification host
      (processSpeechSymbol host (getCurrentLanguage host) (text charInfo))
      (uppercase && sayCapForCapitals synthConfig)
      (if uppercase
       then (if bool_decide (PitchCommandClass ∈ supportedCommands synth)
             then capPitchChange synthConfig else 0%Z)
       else 0%Z)
      (uppercase && beepForCapitals synthConfig) in
  nonEmpty charSequence = true ->
  outcome (_patchedSpeakSelectionChange host caret charInfo true true false priority)
  = emit (speak (_buildSpeechFromTemplate (translate host "%s selected") charSequence)
            priority)
  /\ outcome (_patchedSpeakSelectionChange host charInfo caret' true true false priority)
     = emit (speak (_buildSpeechFromTemplate (translate host "%s unselected") charSequence)
               priority).
Proof.
  intros Hcaret Hcaret' Hchar Hlen Hs Hc uppercase charSequence Hne.
  destruct (speakSingleChar_active host synth synthConfig (text charInfo)
              (getCurrentLanguage host) priority charSequence Hs Hc eq_refl Hne)
    as [Hsel Hunsel].
  apply Nat.eqb_eq in Hlen.
  split.
  - rewrite (patched_run _ _ _ _ _ _ _ [text charInfo] [])
      by (by rewrite ?Hchar; try apply buildTextLists_started).
    simpl outcome. rewrite announce_one_selected.
    unfold selectedAnnouncement. rewrite Hlen. exact Hsel.
  - rewrite (patched_run _ _ _ _ _ _ _ [] [text charInfo])
      by (by rewrite ?Hchar, ?andb_false_r; try apply buildTextLists_cleared).
    simpl outcome. rewrite announce_one_unselected by exact Hcaret'.
    unfold unselectedAnnouncement. rewrite Hlen. exact Hunsel.
Qed.

End SelectDeselect.

Lemma select_then_deselect_single_char_witness :
  let host := englishHost (Some pitchSynth) demoConf in
  outcome (_patchedSpeakSelectionChange host
             (mkOffsets "Hello" 0 0) (mkOffsets "Hello" 0 1) true true false None)
  = emit (speak [PitchCommand 30; BeepCommand 2000 50; Text "cap"; Text "H";
                 PitchCommand 0; Text " selected"] None)
  /\ outcome (_patchedSpeakSelectionChange host
                (mkOffsets "Hello" 0 1) (mkOffsets "Hello" 1 1) true true false None)
     = emit (speak [PitchCommand 30; BeepCommand 2000 50; Text "cap"; Text "H";
                    PitchCommand 0; Text " unselected"] None).
Proof.
  assert (Hc : conf_speech (englishHost (Some pitchSynth) demoConf) !! name pitchSynth
               = Some (mkSynthConfig 30 true true)) by (vm_compute; reflexivity).
  exact (select_then_deselect_single_char (englishHost (Some pitchSynth) demoConf)
           (mkOffsets "Hello" 0 0) (mkOffsets "Hello" 1 1) (mkOffsets "Hello" 0 1)
           pitchSynth (mkSynthConfig 30 true true) None
           eq_refl eq_refl eq_refl eq_refl eq_refl Hc eq_refl).
Defined.

(** ** Shrinking, silence and the host's own paths *)

Lemma forEach_two {A : Type} (body : A -> Outcome unit) (x y : A) :
  forEach body [x; y] = (body x ;; body y).
Proof. simpl. by rewrite then_ret. Qed.

(** When no element is a single character, a loop only makes the host's
    call for each element, in order. *)
Lemma forEach_emit_map {A : Type} (body : A -> Outcome unit) (call : A -> SpeechCall)
    (xs : list A) :
  Forall (fun x => body x = emit (call x)) xs ->
  forEach body xs = mkOutcome (map call xs) (inr tt).
Proof.
  induction 1 as [|x xs Hx _ IH]; [reflexivity|].
  simpl. rewrite Hx, IH. reflexivity.
Qed.

Section ShrinkFacts.

Context {T : Type} `{TextInfo T}.
Variable host : Host.

Lemma buildTextLists_shrunk (oldInfo newInfo : T) (speakSelected speakUnselected : bool) :
  isCollapsed oldInfo = false ->
  isCollapsed newInfo = false ->
  (compareEndPoints newInfo oldInfo Which.startToEnd <= 0)%Z ->
  (0 <= compareEndPoints newInfo oldInfo Which.endToStart)%Z ->
  (0 < compareEndPoints newInfo oldInfo Which.startToStart)%Z ->
  (compareEndPoints newInfo oldInfo Which.endToEnd < 0)%Z ->
  buildTextLists oldInfo newInfo speakSelected speakUnselected
  = ([], [text (setEndPoint (copy oldInfo) newInfo Which.endToStart);
          text (setEndPoint (copy oldInfo) newInfo Which.startToEnd)]).
Proof.
  intros Ho Hn Hse Hes Hss Hee. unfold buildTextLists.
  rewrite Ho, Hn, !andb_false_r. simpl.
  apply Z.ltb_ge in Hse, Hes. rewrite Hse, Hes. simpl.
  assert (Hss1 : (compareEndPoints newInfo oldInfo Which.startToStart <? 0)%Z = false)
    by (apply Z.ltb_ge; lia).
  assert (Hee1 : (0 <? compareEndPoints newInfo oldInfo Which.endToEnd)%Z = false)
    by (apply Z.ltb_ge; lia).
  apply Z.ltb_lt in Hss, Hee.
  rewrite Hss1, Hee1, Hss, Hee, !andb_false_r. reflexivity.
Qed.

(** X11: when the new interval lies strictly inside the previous one
    (neither collapsed, the new one starting later and ending earlier),
    nothing is selected and two spans are unselected, under every value
    of the two speak flags: the previous interval cut at the new start,
    and the previous interval from the new end on. With speakUnselected
    off the call speaks nothing although the list is filled; with it on
    and generalize off, it makes the unselected announcement for the
    first span and then for the second. *)
Theorem shrunk_interval_two_unselected_spans (oldInfo newInfo : T)
    (speakSelected speakUnselected generalize : bool) (priority : option Spri) :
  isCollapsed oldInfo = false ->
  isCollapsed newInfo = false ->
  (compareEndPoints newInfo oldInfo Which.startToEnd <= 0)%Z ->
  (0 <= compareEndPoints newInfo oldInfo Which.endToStart)%Z ->
  (0 < compareEndPoints newInfo oldInfo Which.startToStart)%Z ->
  (compareEndPoints newInfo oldInfo Which.endToEnd < 0)%Z ->
  let run := _patchedSpeakSelectionChange host oldInfo newInfo
               speakSelected speakUnselected generalize priority in
  let left := text (setEndPoint (copy oldInfo) newInfo Which.endToStart) in
  let right := text (setEndPoint (copy oldInfo) newInfo Which.startToEnd) in
  selectedTextList run = []
  /\ unselectedTextList run = [left; right]
  /\ (speakUnselected = false -> outcome run = ret tt)
  /\ (speakUnselected = true -> generalize = false ->
      outcome run
      = (unselectedAnnouncement host left (getCurrentLanguage host) priority ;;
         unselectedAnnouncement host right (getCurrentLanguage host) priority)).
Proof.
  intros Ho Hn Hse Hes Hss Hee run left right. subst run.
  rewrite (patched_run _ _ _ _ _ _ _ [] [left; right])
    by (by rewrite ?Hn; try apply buildTextLists_shrunk).
  simpl. repeat split.
  - intros ->. unfold announce. destruct speakSelected, generalize; reflexivity.
  - intros -> ->. unfold announce. cbv zeta. simpl negb. cbv iota.
    rewrite forEach_two.
    destruct speakSelected; simpl forEach; rewrite ret_then; reflexivity.
Qed.

(** X12: a flag that is off keeps its side silent. With speakSelected off
    the selected list stays empty for every pair of intervals, and with
    both flags off the call speaks nothing and returns, whatever the
    intervals, the mode and the host. *)
Theorem flags_off_silent (oldInfo newInfo : T)
    (speakUnselected generalize : bool) (priority : option Spri) :
  selectedTextList (_patchedSpeakSelectionChange host oldInfo newInfo
                      false speakUnselected generalize priority) = []
  /\ outcome (_patchedSpeakSelectionChange host oldInfo newInfo
                false false generalize priority) = ret tt.
Proof.
  split.
  - unfold _patchedSpeakSelectionChange, buildTextLists.
    repeat match goal with
           | |- context [if ?b then _ else _] => destruct b; simpl
           end; reflexivity.
  - unfold _patchedSpeakSelectionChange.
    destruct (isCollapsed newInfo && isCollapsed oldInfo); [reflexivity|].
    destruct (buildTextLists oldInfo newInfo false false). reflexivity.
Qed.

(** X13: texts that are not single characters go to the host's own
    announcements and nowhere else. Without generalize, when no text in the
    two lists of a call is one character long, the call makes one
    [speakTextSelected] call per selected text and then one
    [speakSelectionMessage] call with "%s unselected" per unselected
    text, each side only when its flag is on, and returns: it makes no
    [speak] call and cannot raise, whatever the synthesizer and its
    configuration are. *)
Theorem no_single_char_host_paths_only (oldInfo newInfo : T)
    (speakSelected speakUnselected : bool) (priority : option Spri) :
  let run := _patchedSpeakSelectionChange host oldInfo newInfo
               speakSelected speakUnselected false priority in
  Forall (fun text => String.length text <> 1)
    (selectedTextList run ++ unselectedTextList run) ->
  outcome run
  = mkOutcome
      ((if speakSelected
        then map (fun text => speakTextSelected text priority) (selectedTextList run)
        else [])
       ++ (if speakUnselected
           then map (fun text =>
                  speakSelectionMessage (translate host "%s unselected") text priority)
                  (unselectedTextList run)
           else []))
      (inr tt).
Proof.
  intros run. subst run. unfold _patchedSpeakSelectionChange.
  destruct (isCollapsed newInfo && isCollapsed oldInfo).
  { intros _. simpl. destruct speakSelected, speakUnselected; reflexivity. }
  destruct (buildTextLists oldInfo newInfo speakSelected speakUnselected)
    as [selected unselected].
  simpl. intros Hall. apply Forall_app in Hall as [Hsel Hunsel].
  unfold announce. cbv zeta. simpl negb. cbv iota.
  rewrite (forEach_emit_map _ (fun text => speakTextSelected text priority) selected).
  2:{ eapply Forall_impl; [exact Hsel|]. intros text Hlen. simpl in Hlen.
      apply Nat.eqb_neq in Hlen. by rewrite Hlen. }
  rewrite (forEach_emit_map _
             (fun text => speakSelectionMessage (translate host "%s unselected") text priority)
             unselected).
  2:{ eapply Forall_impl; [exact Hunsel|]. intros text Hlen. simpl in Hlen.
      apply Nat.eqb_neq in Hlen. by rewrite Hlen. }
  destruct speakSelected, speakUnselected;
    unfold mbind, Outcome_bind, bind; simpl; rewrite ?app_nil_r; reflexivity.
Qed.

End ShrinkFacts.

Lemma shrunk_interval_two_unselected_spans_witness :
  let host := englishHost (Some demoSynth) demoConf in
  let run := _patchedSpeakSelectionChange host
               (mkOffsets "abcdefg" 1 6) (mkOffsets "abcdefg" 2 4) true true false None in
  selectedTextList run = []
  /\ unselectedTextList run = ["b"%string; "ef"%string]
  /\ (true = false -> outcome run = ret tt)
  /\ (true = true -> false = false ->
      outcome run
      = (unselectedAnnouncement host "b" "en" None ;;
         unselectedAnnouncement host "ef" "en" None)).
Proof.
  assert (Hse : (compareEndPoints (mkOffsets "abcdefg" 2 4) (mkOffsets "abcdefg" 1 6)
                   Which.startToEnd <= 0)%Z) by (vm_compute; discriminate).
  assert (Hes : (0 <= compareEndPoints (mkOffsets "abcdefg" 2 4) (mkOffsets "abcdefg" 1 6)
                   Which.endToStart)%Z) by (vm_compute; discriminate).
  exact (shrunk_interval_two_unselected_spans (englishHost (Some demoSynth) demoConf)
           (mkOffsets "abcdefg" 1 6) (mkOffsets "abcdefg" 2 4) true true false None
           eq_refl eq_refl Hse Hes eq_refl eq_refl).
Defined.

Lemma no_single_char_host_paths_only_witness :
  outcome (_patchedSpeakSelectionChange (englishHost (Some demoSynth) ∅)
             (mkOffsets "abcdefg" 0 2) (mkOffsets "abcdefg" 3 5) true true false None)
  = mkOutcome [speakTextSelected "de" None;
               speakSelectionMessage "%s unselected" "ab" None] (inr tt).
Proof.
  assert (Hall : Forall (fun text => String.length text <> 1)
                   (selectedTextList
                      (_patchedSpeakSelectionChange (englishHost (Some demoSynth) ∅)
                         (mkOffsets "abcdefg" 0 2) (mkOffsets "abcdefg" 3 5)
                         true true false None)
                    ++ unselectedTextList
                         (_patchedSpeakSelectionChange (englishHost (Some demoSynth) ∅)
                            (mkOffsets "abcdefg" 0 2) (mkOffsets "abcdefg" 3 5)
                            true true false None)))
    by (vm_compute; repeat constructor; discriminate).
  exact (no_single_char_host_paths_only (englishHost (Some demoSynth) ∅)
           (mkOffsets "abcdefg" 0 2) (mkOffsets "abcdefg" 3 5) true true None Hall).
Defined.

(** ** What every call keeps *)

Lemma bind_calls (P : SpeechCall -> Prop) (m k : Outcome unit) (n1 n2 : nat) :
  List.length (emitted m) <= n1 -> Forall P (emitted m) ->
  List.length (emitted k) <= n2 -> Forall P (emitted k) ->
  List.length (emitted (m ;; k)) <= n1 + n2 /\ Forall P (emitted (m ;; k)).
Proof.
  intros Hm1 Hm2 Hk1 Hk2. unfold mbind, Outcome_bind, bind.
  destruct (result m); simpl.
  - split; [lia | exact Hm2].
  - rewrite length_app. split; [lia | by apply Forall_app].
Qed.

Lemma forEach_calls {A : Type} (P : SpeechCall -> Prop) (body : A -> Outcome unit)
    (xs : list A) :
  (forall x, List.length (emitted (body x)) <= 1 /\ Forall P (emitted (body x))) ->
  List.length (emitted (forEach body xs)) <= List.length xs
  /\ Forall P (emitted (forEach body xs)).
Proof.
  intros Hbody. induction xs as [|x xs [IH1 IH2]].
  - simpl. split; [lia | constructor].
  - destruct (Hbody x) as [Hx1 Hx2].
    change (forEach body (x :: xs)) with (body x ;; forEach body xs).
    change (List.length (x :: xs)) with (1 + List.length xs).
    by apply bind_calls.
Qed.

Lemma speakSingleChar_calls (host : Host) (char locale : string) (priority : option Spri) :
  let P := fun c => callPriority c = priority in
  (List.length (emitted (_speakSingleCharSelected host char locale priority)) <= 1
   /\ Forall P (emitted (_speakSingleCharSelected host char locale priority)))
  /\ (List.length (emitted (_speakSingleCharUnselected host char locale priority)) <= 1
      /\ Forall P (emitted (_speakSingleCharUnselected host char locale priority))).
Proof.
  intros P. unfold _speakSingleCharSelected, _speakSingleCharUnselected.
  split.
  - destruct (_getSingleCharSelectionSpeech host char locale None) as [e|seq];
      unfold mbind, Outcome_bind, bind, lift; simpl; [split; [lia | constructor]|].
    destruct (nonEmpty seq); simpl; split; try lia; repeat constructor.
  - destruct (_getSingleCharSelectionSpeech host char locale
                (Some (translate host "%s unselected"))) as [e|seq];
      unfold mbind, Outcome_bind, bind, lift; simpl; [split; [lia | constructor]|].
    destruct (nonEmpty seq); simpl; split; try lia; repeat constructor.
Qed.

Section CallFacts.

Context {T : Type} `{TextInfo T}.
Variable host : Host.

(** The calls of [announce]: no more than one per text without
    generalize, no more than one per side with it, each with the priority
    given. *)
Lemma announce_calls (newInfo : T) (selected unselected : list string)
    (speakSelected speakUnselected generalize : bool) (priority : option Spri) :
  let calls := emitted (announce host newInfo selected unselected
                          speakSelected speakUnselected generalize priority) in
  List.length calls
  <= (if generalize then 1 else List.length selected)
     + (if generalize then 1 else List.length unselected)
  /\ Forall (fun c => callPriority c = priority) calls.
Proof.
  intros calls. subst calls. unfold announce. cbv zeta.
  pose proof (speakSingleChar_calls host) as Hsingle. cbv zeta in Hsingle.
  match goal with
  | |- List.length (emitted (mbind (fun _ => ?k) ?m)) <= _ /\ _ =>
      assert (B1 : List.length (emitted m) <= (if generalize then 1 else List.length selected)
                   /\ Forall (fun c => callPriority c = priority) (emitted m));
      [| assert (B2 : List.length (emitted k)
                      <= (if generalize then 1 else List.length unselected)
                      /\ Forall (fun c => callPriority c = priority) (emitted k));
         [| destruct B1, B2; by apply bind_calls ] ]
  end.
  - destruct speakSelected; [|destruct generalize; simpl; split; try lia; constructor].
    destruct generalize; simpl negb; cbv iota.
    + destruct (0 <? List.length selected)%nat; [|simpl; split; [lia | constructor]].
      destruct (String.length (text newInfo) =? 1)%nat;
        [apply Hsingle | simpl; split; [lia | repeat constructor]].
    + apply forEach_calls. intros x.
      destruct (String.length x =? 1)%nat;
        [apply Hsingle | simpl; split; [lia | repeat constructor]].
  - destruct speakUnselected; [|destruct generalize; simpl; split; try lia; constructor].
    destruct generalize; simpl negb; cbv iota.
    + destruct (0 <? List.length unselected)%nat; [|simpl; split; [lia | constructor]].
      destruct (negb (isCollapsed newInfo)); [|simpl; split; [lia | repeat constructor]].
      destruct (String.length (text newInfo) =? 1)%nat;
        [apply Hsingle | simpl; split; [lia | repeat constructor]].
    + apply forEach_calls. intros x.
      destruct (String.length x =? 1)%nat;
        [apply Hsingle | simpl; split; [lia | repeat constructor]].
Qed.

Lemma buildTextLists_lengths (oldInfo newInfo : T) (speakSelected speakUnselected : bool) :
  List.length (fst (buildTextLists oldInfo newInfo speakSelected speakUnselected)) <= 2
  /\ List.length (snd (buildTextLists oldInfo newInfo speakSelected speakUnselected)) <= 2.
Proof.
  unfold buildTextLists.
  repeat match goal with
         | |- context [if ?b then _ else _] => destruct b; simpl
         end; lia.
Qed.

(** X14: the priority is handed on as it is. Every call a run makes into
    the host's speech output, whichever of the four it is, carries the
    priority the run was given. *)
Theorem priority_passed_unchanged (oldInfo newInfo : T)
    (speakSelected speakUnselected generalize : bool) (priority : option Spri) :
  Forall (fun c => callPriority c = priority)
    (emitted (outcome (_patchedSpeakSelectionChange host oldInfo newInfo
                         speakSelected speakUnselected generalize priority))).
Proof.
  unfold _patchedSpeakSelectionChange.
  destruct (isCollapsed newInfo && isCollapsed oldInfo); [constructor|].
  destruct (buildTextLists oldInfo newInfo speakSelected speakUnselected)
    as [selected unselected].
  simpl. apply announce_calls.
Qed.

(** X15: a run never has more than two selected and two unselected
    texts, and it makes no more speech calls than it has texts: at most
    one per text without generalize, and at most two in all with it. *)
Theorem spans_and_calls_bounded (oldInfo newInfo : T)
    (speakSelected speakUnselected generalize : bool) (priority : option Spri) :
  let run := _patchedSpeakSelectionChange host oldInfo newInfo
               speakSelected speakUnselected generalize priority in
  List.length (selectedTextList run) <= 2
  /\ List.length (unselectedTextList run) <= 2
  /\ List.length (emitted (outcome run))
     <= (if generalize then 2
         else List.length (selectedTextList run) + List.length (unselectedTextList run)).
Proof.
  intros run. subst run. unfold _patchedSpeakSelectionChange.
  destruct (isCollapsed newInfo && isCollapsed oldInfo).
  { simpl. destruct generalize; lia. }
  pose proof (buildTextLists_lengths oldInfo newInfo speakSelected speakUnselected)
    as [Hsel Hunsel].
  destruct (buildTextLists oldInfo newInfo speakSelected speakUnselected)
    as [selected unselected].
  simpl in *. repeat split; try assumption.
  pose proof (announce_calls newInfo selected unselected
                speakSelected speakUnselected generalize priority) as [Hlen _].
  cbv zeta in Hlen. destruct generalize; simpl in Hlen |- *; lia.
Qed.

End CallFacts.

(** ** Installing twice *)

(** X16: a second [__init__] without a [terminate] in between saves the
    patched entry point as the original. From then on [terminate], called
    once or any number of times, leaves the patched entry point installed
    and the saved reference cleared: the entry point that was installed
    before the first [__init__] is not put back. *)
Theorem double_init_keeps_patch_installed (g : Globals) (n : nat) :
  terminateTimes (S n) (GlobalPlugin.__init__ (GlobalPlugin.__init__ g))
  = mkGlobals patchedSpeakSelectionChange None.
Proof.
  induction n as [|n IH].
  - reflexivity.
  - change (terminateTimes (S (S n)) (GlobalPlugin.__init__ (GlobalPlugin.__init__ g)))
      with (GlobalPlugin.terminate
              (terminateTimes (S n) (GlobalPlugin.__init__ (GlobalPlugin.__init__ g)))).
    rewrite IH. reflexivity.
Qed.

(** ** Generalize mode and moving one end *)

Section GeneralizeFacts.

Context {T : Type} `{TextInfo T}.
Variable host : Host.

Lemma buildTextLists_enclosing (oldInfo newInfo : T) :
  isCollapsed oldInfo = false ->
  isCollapsed newInfo = false ->
  (compareEndPoints newInfo oldInfo Which.startToEnd <= 0)%Z ->
  (0 <= compareEndPoints newInfo oldInfo Which.endToStart)%Z ->
  (compareEndPoints newInfo oldInfo Which.startToStart < 0)%Z ->
  (0 < compareEndPoints newInfo oldInfo Which.endToEnd)%Z ->
  buildTextLists oldInfo newInfo true true
  = ([text (setEndPoint (copy newInfo) oldInfo Which.endToStart);
      text (setEndPoint (copy newInfo) oldInfo Which.startToEnd)], []).
Proof.
  intros Ho Hn Hse Hes Hss Hee. unfold buildTextLists. rewrite Ho, Hn. simpl.
  apply Z.ltb_ge in Hse, Hes. rewrite Hse, Hes. simpl.
  assert (Hss1 : (0 <? compareEndPoints newInfo oldInfo Which.startToStart)%Z = false)
    by (apply Z.ltb_ge; lia).
  assert (Hee1 : (compareEndPoints newInfo oldInfo Which.endToEnd <? 0)%Z = false)
    by (apply Z.ltb_ge; lia).
  apply Z.ltb_lt in Hss, Hee. rewrite Hss, Hee, Hss1, Hee1. reflexivity.
Qed.

(** The lists when both intervals start at the same place. *)
Lemma buildTextLists_same_start (oldInfo newInfo : T) :
  isCollapsed oldInfo = false ->
  isCollapsed newInfo = false ->
  (compareEndPoints newInfo oldInfo Which.startToEnd <= 0)%Z ->
  (0 <= compareEndPoints newInfo oldInfo Which.endToStart)%Z ->
  compareEndPoints newInfo oldInfo Which.startToStart = 0%Z ->
  buildTextLists oldInfo newInfo true true
  = ((if (0 <? compareEndPoints newInfo oldInfo Which.endToEnd)%Z
      then [text (setEndPoint (copy newInfo) oldInfo Which.startToEnd)] else []),
     (if (compareEndPoints newInfo oldInfo Which.endToEnd <? 0)%Z
      then [text (setEndPoint (copy oldInfo) newInfo Which.startToEnd)] else [])).
Proof.
  intros Ho Hn Hse Hes Hss. unfold buildTextLists. rewrite Ho, Hn, Hss. simpl.
  apply Z.ltb_ge in Hse, Hes. rewrite Hse, Hes. simpl.
  destruct (0 <? compareEndPoints newInfo oldInfo Which.endToEnd)%Z,
           (compareEndPoints newInfo oldInfo Which.endToEnd <? 0)%Z; reflexivity.
Qed.

(** X17: generalize mode reports the selection as it now stands, not the
    parts added. When the new interval extends the previous one on both
    sides, the two added spans are in the selected list, yet with
    generalize on the call makes one announcement only, for the whole
    text of the new interval. *)
Theorem generalize_announces_whole_new_text (oldInfo newInfo : T)
    (priority : option Spri) :
  isCollapsed oldInfo = false ->
  isCollapsed newInfo = false ->
  (compareEndPoints newInfo oldInfo Which.startToEnd <= 0)%Z ->
  (0 <= compareEndPoints newInfo oldInfo Which.endToStart)%Z ->
  (compareEndPoints newInfo oldInfo Which.startToStart < 0)%Z ->
  (0 < compareEndPoints newInfo oldInfo Which.endToEnd)%Z ->
  let run := _patchedSpeakSelectionChange host oldInfo newInfo true true true priority in
  List.length (selectedTextList run) = 2
  /\ outcome run
     = selectedAnnouncement host (text newInfo) (getCurrentLanguage host) priority.
Proof.
  intros Ho Hn Hse Hes Hss Hee run. subst run.
  rewrite (patched_run _ _ _ _ _ _ _
             [text (setEndPoint (copy newInfo) oldInfo Which.endToStart);
              text (setEndPoint (copy newInfo) oldInfo Which.startToEnd)] [])
    by (by rewrite ?Hn; try apply buildTextLists_enclosing).
  simpl. split; [reflexivity|].
  unfold announce. cbv zeta. simpl. apply then_ret.
Qed.

(** X18: in generalize mode a replaced selection is reported through the
    new text alone. When the new interval lies apart from the previous one
    and its text is not a single character, the call announces the new
    text with the host's [speakTextSelected] and then speaks it again in
    the "%s selected instead" message; the previous text is not spoken. *)
Theorem generalize_replacement_speaks_new_text_twice (oldInfo newInfo : T)
    (priority : option Spri) :
  isCollapsed oldInfo = false ->
  isCollapsed newInfo = false ->
  (0 < compareEndPoints newInfo oldInfo Which.startToEnd
   \/ compareEndPoints newInfo oldInfo Which.endToStart < 0)%Z ->
  String.length (text newInfo) <> 1 ->
  outcome (_patchedSpeakSelectionChange host oldInfo newInfo true true true priority)
  = mkOutcome
      [speakTextSelected (text newInfo) priority;
       speakSelectionMessage (translate host "%s selected instead") (text newInfo) priority]
      (inr tt).
Proof.
  intros Ho Hn Hd Hlen.
  rewrite (patched_run _ _ _ _ _ _ _ [text newInfo] [text oldInfo])
    by (by rewrite ?Hn; try apply buildTextLists_disjoint).
  simpl outcome. unfold announce. cbv zeta. simpl.
  apply Nat.eqb_neq in Hlen. rewrite Hn, Hlen. reflexivity.
Qed.

(** X19: moving the end of a selection forward announces only what was
    added. When both intervals start at the same place, overlap, and the
    new one ends later, the one selected text is the new interval from
    the previous end on, nothing is unselected, and without generalize
    the call makes the one selected announcement for that text. *)
Theorem end_moved_forward_announces_added_text (oldInfo newInfo : T)
    (priority : option Spri) :
  isCollapsed oldInfo = false ->
  isCollapsed newInfo = false ->
  (compareEndPoints newInfo oldInfo Which.startToEnd <= 0)%Z ->
  (0 <= compareEndPoints newInfo oldInfo Which.endToStart)%Z ->
  compareEndPoints newInfo oldInfo Which.startToStart = 0%Z ->
  (0 < compareEndPoints newInfo oldInfo Which.endToEnd)%Z ->
  let run := _patchedSpeakSelectionChange host oldInfo newInfo true true false priority in
  let added := text (setEndPoint (copy newInfo) oldInfo Which.startToEnd) in
  selectedTextList run = [added]
  /\ unselectedTextList run = []
  /\ outcome run = selectedAnnouncement host added (getCurrentLanguage host) priority.
Proof.
  intros Ho Hn Hse Hes Hss Hee run added. subst run.
  assert (Hee1 : (compareEndPoints newInfo oldInfo Which.endToEnd <? 0)%Z = false)
    by (apply Z.ltb_ge; lia).
  apply Z.ltb_lt in Hee.
  rewrite (patched_run _ _ _ _ _ _ _ [added] [])
    by (rewrite ?Hn; try reflexivity;
        rewrite buildTextLists_same_start by assumption; by rewrite Hee, Hee1).
  simpl. repeat split.
  rewrite announce_loops, forEach_one. simpl forEach. apply then_ret.
Qed.

(** X20: moving the end of a selection back announces only what was
    dropped. When both intervals start at the same place, overlap, and
    the new one ends earlier, the one unselected text is the previous
    interval from the new end on, nothing is selected, and without
    generalize the call makes the one unselected announcement for that
    text. *)
Theorem end_moved_back_announces_dropped_text (oldInfo newInfo : T)
    (priority : option Spri) :
  isCollapsed oldInfo = false ->
  isCollapsed newInfo = false ->
  (compareEndPoints newInfo oldInfo Which.startToEnd <= 0)%Z ->
  (0 <= compareEndPoints newInfo oldInfo Which.endToStart)%Z ->
  compareEndPoints newInfo oldInfo Which.startToStart = 0%Z ->
  (compareEndPoints newInfo oldInfo Which.endToEnd < 0)%Z ->
  let run := _patchedSpeakSelectionChange host oldInfo newInfo true true false priority in
  let dropped := text (setEndPoint (copy oldInfo) newInfo Which.startToEnd) in
  selectedTextList run = []
  /\ unselectedTextList run = [dropped]
  /\ outcome run = unselectedAnnouncement host dropped (getCurrentLanguage host) priority.
Proof.
  intros Ho Hn Hse Hes Hss Hee run dropped. subst run.
  assert (Hee1 : (0 <? compareEndPoints newInfo oldInfo Which.endToEnd)%Z = false)
    by (apply Z.ltb_ge; lia).
  apply Z.ltb_lt in Hee.
  rewrite (patched_run _ _ _ _ _ _ _ [] [dropped])
    by (rewrite ?Hn; try reflexivity;
        rewrite buildTextLists_same_start by assumption; by rewrite Hee, Hee1).
  simpl. repeat split.
  rewrite announce_loops, forEach_one. simpl forEach. apply ret_then.
Qed.

End GeneralizeFacts.

Lemma generalize_announces_whole_new_text_witness :
  let host := englishHost (Some demoSynth) demoConf in
  let run := _patchedSpeakSelectionChange host
               (mkOffsets "abcdefg" 3 4) (mkOffsets "abcdefg" 2 5) true true true None in
  List.length (selectedTextList run) = 2
  /\ outcome run = emit (speakTextSelected "cde" None).
Proof.
  assert (Hse : (compareEndPoints (mkOffsets "abcdefg" 2 5) (mkOffsets "abcdefg" 3 4)
                   Which.startToEnd <= 0)%Z) by (vm_compute; discriminate).
  assert (Hes : (0 <= compareEndPoints (mkOffsets "abcdefg" 2 5) (mkOffsets "abcdefg" 3 4)
                   Which.endToStart)%Z) by (vm_compute; discriminate).
  exact (generalize_announces_whole_new_text (englishHost (Some demoSynth) demoConf)
           (mkOffsets "abcdefg" 3 4) (mkOffsets "abcdefg" 2 5) None
           eq_refl eq_refl Hse Hes eq_refl eq_refl).
Defined.

Lemma generalize_replacement_speaks_new_text_twice_witness :
  outcome (_patchedSpeakSelectionChange (englishHost (Some demoSynth) demoConf)
             (mkOffsets "abcdefg" 1 2) (mkOffsets "abcdefg" 4 6) true true true None)
  = mkOutcome [speakTextSelected "ef" None;
               speakSelectionMessage "%s selected instead" "ef" None] (inr tt).
Proof.
  assert (Hlen : String.length (text (mkOffsets "abcdefg" 4 6)) <> 1)
    by (vm_compute; discriminate).
  exact (generalize_replacement_speaks_new_text_twice
           (englishHost (Some demoSynth) demoConf)
           (mkOffsets "abcdefg" 1 2) (mkOffsets "abcdefg" 4 6) None
           eq_refl eq_refl (or_introl eq_refl) Hlen).
Defined.

Lemma end_moved_forward_announces_added_text_witness :
  let host := englishHost (Some demoSynth) demoConf in
  let run := _patchedSpeakSelectionChange host
               (mkOffsets "HEllo" 0 1) (mkOffsets "HEllo" 0 2) true true false None in
  selectedTextList run = ["E"%string]
  /\ unselectedTextList run = []
  /\ outcome run = emit (speak [Text "cap"; Text "E"; Text " selected"] None).
Proof.
  assert (Hse : (compareEndPoints (mkOffsets "HEllo" 0 2) (mkOffsets "HEllo" 0 1)
                   Which.startToEnd <= 0)%Z) by (vm_compute; discriminate).
  assert (Hes : (0 <= compareEndPoints (mkOffsets "HEllo" 0 2) (mkOffsets "HEllo" 0 1)
                   Which.endToStart)%Z) by (vm_compute; discriminate).
  exact (end_moved_forward_announces_added_text (englishHost (Some demoSynth) demoConf)
           (mkOffsets "HEllo" 0 1) (mkOffsets "HEllo" 0 2) None
           eq_refl eq_refl Hse Hes eq_refl eq_refl).
Defined.

Lemma end_moved_back_announces_dropped_text_witness :
  let host := englishHost (Some demoSynth) demoConf in
  let run := _patchedSpeakSelectionChange host
               (mkOffsets "HEllo" 0 2) (mkOffsets "HEllo" 0 1) true true false None in
  selectedTextList run = []
  /\ unselectedTextList run = ["E"%string]
  /\ outcome run = emit (speak [Text "cap"; Text "E"; Text " unselected"] None).
Proof.
  assert (Hse : (compareEndPoints (mkOffsets "HEllo" 0 1) (mkOffsets "HEllo" 0 2)
                   Which.startToEnd <= 0)%Z) by (vm_compute; discriminate).
  assert (Hes : (0 <= compareEndPoints (mkOffsets "HEllo" 0 1) (mkOffsets "HEllo" 0 2)
                   Which.endToStart)%Z) by (vm_compute; discriminate).
  exact (end_moved_back_announces_dropped_text (englishHost (Some demoSynth) demoConf)
           (mkOffsets "HEllo" 0 2) (mkOffsets "HEllo" 0 1) None
           eq_refl eq_refl Hse Hes eq_refl eq_refl).
Defined.
